(** * Invoice generator: record resolution, payment rules and document layout

    A shallow embedding of [invoice_generator.py] and of the generation loop
    of [web_app.py], with the properties of the specification proved (or
    refuted) against it.

    Conventions of the embedding.
    - Python text is a [string]; one [ascii] stands for one code point in
      the range 0..255, so [String.length] is Python's [len].
    - A cell of a pandas row is seen by the code only through [pd.notna]
      and [str()]: [NA] is a null cell, [Val s] a non-null one whose
      [str()] is [s].  A row is a finite map from column label to cell.
    - Python [int] is [Z].  Python [float] is binary64, kept as an exact
      multiple of 2^-1074 with round-to-nearest-even written out.
    - An exception is a value of [exn]; code that can raise returns a
      [result]. *)

From Stdlib Require Import ZArith Lia List String Ascii Bool DecimalString.
From Stdlib Require DecimalPos.
From stdpp Require Import gmap strings.
Import ListNotations.

Open Scope string_scope.
Open Scope Z_scope.

(** ** Text *)

Module Str.

Definition code (c : ascii) : Z := Z.of_N (N_of_ascii c).

Definition chr (n : Z) : ascii := ascii_of_N (Z.to_N n).

(** [len(s)] *)
Definition len (s : string) : Z := Z.of_nat (String.length s).

(** Truth value of a string: non-empty. *)
Definition truthy (s : string) : bool :=
  match s with EmptyString => false | String _ _ => true end.

(** [str.isspace] on one code point below 256. *)
Definition isspace (c : ascii) : bool :=
  let n := code c in
  ((9 <=? n) && (n <=? 13)) || ((28 <=? n) && (n <=? 32))
  || (n =? 133) || (n =? 160).

Fixpoint all (p : ascii -> bool) (s : string) : bool :=
  match s with
  | EmptyString => true
  | String c r => p c && all p r
  end.

Fixpoint lstrip (s : string) : string :=
  match s with
  | EmptyString => EmptyString
  | String c r => if isspace c then lstrip r else s
  end.

Fixpoint rstrip (s : string) : string :=
  match s with
  | EmptyString => EmptyString
  | String c r =>
      let r' := rstrip r in
      if isspace c && negb (truthy r') then EmptyString else String c r'
  end.

(** [s.strip()] *)
Definition strip (s : string) : string := rstrip (lstrip s).

(** [str.lower] on one code point below 256: A-Z and the Latin-1
    capitals (all of 192..222 but the multiplication sign 215). *)
Definition lower_char (c : ascii) : ascii :=
  let n := code c in
  if ((65 <=? n) && (n <=? 90))
     || ((192 <=? n) && (n <=? 222) && negb (n =? 215))
  then chr (n + 32) else c.

Fixpoint lower (s : string) : string :=
  match s with
  | EmptyString => EmptyString
  | String c r => String (lower_char c) (lower r)
  end.

Fixpoint startswith (p s : string) : bool :=
  match p, s with
  | EmptyString, _ => true
  | String a p', String b s' => Ascii.eqb a b && startswith p' s'
  | String _ _, EmptyString => false
  end.

(** [sub in s] *)
Fixpoint contains (sub s : string) : bool :=
  startswith sub s ||
  match s with
  | EmptyString => false
  | String _ r => contains sub r
  end.

(** [s.split()]: the maximal runs of non-whitespace, in order.
    [cur] is the word being read. *)
Fixpoint split_go (cur s : string) : list string :=
  match s with
  | EmptyString => if truthy cur then [cur] else []
  | String c r =>
      if isspace c
      then (if truthy cur then cur :: split_go EmptyString r
            else split_go EmptyString r)
      else split_go (cur +:+ String c EmptyString) r
  end.

Definition split (s : string) : list string := split_go EmptyString s.

(** [s.split(sep)] for a one-character separator: pieces may be empty. *)
Fixpoint split_on_go (sep : ascii) (cur s : string) : list string :=
  match s with
  | EmptyString => [cur]
  | String c r =>
      if Ascii.eqb c sep then cur :: split_on_go sep EmptyString r
      else split_on_go sep (cur +:+ String c EmptyString) r
  end.

Definition split_on (sep : ascii) (s : string) : list string :=
  split_on_go sep EmptyString s.

(** [sep.join(l)] *)
Fixpoint join (sep : string) (l : list string) : string :=
  match l with
  | [] => EmptyString
  | [x] => x
  | x :: r => x +:+ sep +:+ join sep r
  end.

(** [str(n)] for an [int]. *)
Definition of_Z (n : Z) : string := NilZero.string_of_int (Z.to_int n).

End Str.

(** The line feed, the separator of the lines of a wrapped text. *)
Definition LF : ascii := Str.chr 10.

(** ** Rows *)

Inductive cell : Type :=
| NA
| Val (text : string).

(** [get_column_value(row, possible_names, default='-')] *)
Fixpoint get_column_value (row : gmap string cell)
    (possible_names : list string) (default : string) : string :=
  match possible_names with
  | [] => default
  | name :: rest =>
      match row !! name with
      | Some (Val text) =>
          if Str.truthy (Str.strip text) then Str.strip text
          else get_column_value row rest default
      | Some NA | None => get_column_value row rest default
      end
  end.

(** ** Exceptions *)

Inductive exn_class : Type := TypeError | ValueError | OverflowError.

Record exn : Type := Exn { exn_cls : exn_class; exn_msg : string }.

Inductive result (A : Type) : Type :=
| Ok (a : A)
| Raise (e : exn).

Arguments Ok {A} a.
Arguments Raise {A} e.

Definition bind {A B : Type} (m : result A) (k : A -> result B) : result B :=
  match m with
  | Ok a => k a
  | Raise e => Raise e
  end.

Notation "'let*' x ':=' m 'in' k" := (bind m (fun x => k))
  (at level 10, x name, m at level 100, k at level 200).

Definition exn_class_eqb (a b : exn_class) : bool :=
  match a, b with
  | TypeError, TypeError | ValueError, ValueError
  | OverflowError, OverflowError => true
  | _, _ => false
  end.

(** [try: m  except (classes): handler] *)
Definition try_except {A : Type} (m : result A) (classes : list exn_class)
    (handler : A) : result A :=
  match m with
  | Ok a => Ok a
  | Raise e =>
      if existsb (exn_class_eqb (exn_cls e)) classes then Ok handler
      else Raise e
  end.

(** ** Binary64 floats

    A finite float is [Fin k], the number k * 2^-1074: every finite
    binary64 value is such a multiple.  The sign of a zero is not kept; no
    operation of the program observes it. *)

Module F64.

Inductive t : Type :=
| Fin (k : Z)
| Inf (negative : bool)
| NaN.

(** The number 1, in units of 2^-1074. *)
Definition one : Z := 2 ^ 1074.

(** First value too large for a finite float (2^1024), in units. *)
Definition huge : Z := 2 ^ 2098.

(** [n / d] rounded to the nearest integer, ties to even
    ([0 <= n], [0 < d]). *)
Definition rne (n d : Z) : Z :=
  let q := n / d in
  match 2 * (n mod d) ?= d with
  | Lt => q
  | Eq => if Z.even q then q else q + 1
  | Gt => q + 1
  end.

(** The float nearest to [n / d] units ([0 <= n], [0 < d]): 53
    significant bits are kept, so a quotient of more than 53 bits is
    rounded to a multiple of [2 ^ s]. *)
Definition round_pos (n d : Z) : t :=
  let s := Z.max 0 (Z.log2 (n / d) - 52) in
  let k := rne n (d * 2 ^ s) * 2 ^ s in
  if k <? huge then Fin k else Inf false.

Definition neg (x : t) : t :=
  match x with
  | Fin k => Fin (- k)
  | Inf b => Inf (negb b)
  | NaN => NaN
  end.

Definition round (n d : Z) : t :=
  if n <? 0 then neg (round_pos (- n) d) else round_pos n d.

Definition half : t := Fin (2 ^ 1073).

Definition mul (x y : t) : t :=
  match x, y with
  | NaN, _ | _, NaN => NaN
  | Fin a, Fin b => round (a * b) one
  | Fin a, Inf s | Inf s, Fin a =>
      if a =? 0 then NaN else Inf (xorb s (a <? 0))
  | Inf s1, Inf s2 => Inf (xorb s1 s2)
  end.

Definition add (x y : t) : t :=
  match x, y with
  | NaN, _ | _, NaN => NaN
  | Fin a, Fin b => round (a + b) 1
  | Fin _, Inf s | Inf s, Fin _ => Inf s
  | Inf s1, Inf s2 => if Bool.eqb s1 s2 then Inf s1 else NaN
  end.

Definition sub (x y : t) : t := add x (neg y).

(** [float(z)], also the conversion of the [int] operand of a mixed
    operation. *)
Definition of_Z (z : Z) : result t :=
  match round (z * one) 1 with
  | Inf _ => Raise (Exn OverflowError "int too large to convert to float")
  | f => Ok f
  end.

(** [int(x)]: truncation toward zero. *)
Definition to_Z (x : t) : result Z :=
  match x with
  | Fin k => Ok (Z.quot k one)
  | Inf _ =>
      Raise (Exn OverflowError "cannot convert float infinity to integer")
  | NaN => Raise (Exn ValueError "cannot convert float NaN to integer")
  end.

(** [x > z] for an [int] [z]: the comparison is exact. *)
Definition gt_Z (x : t) (z : Z) : bool :=
  match x with
  | Fin k => z * one <? k
  | Inf negative => negb negative
  | NaN => false
  end.

(** [x >= z] for an [int] [z]. *)
Definition ge_Z (x : t) (z : Z) : bool :=
  match x with
  | Fin k => z * one <=? k
  | Inf negative => negb negative
  | NaN => false
  end.

(** [x == z] for an [int] [z]. *)
Definition eq_Z (x : t) (z : Z) : bool :=
  match x with
  | Fin k => k =? z * one
  | Inf _ | NaN => false
  end.

(** *** [float(text)] *)

Definition is_digit (c : ascii) : bool :=
  (48 <=? Str.code c) && (Str.code c <=? 57).

(** The C-locale white space that [float] strips. *)
Definition c_isspace (c : ascii) : bool :=
  ((9 <=? Str.code c) && (Str.code c <=? 13)) || (Str.code c =? 32).

(** Non-ASCII white space becomes a blank; the text is cut, with a
    question mark, at the first other code point above 126.  A text
    that is ASCII throughout is left alone. *)
Fixpoint to_ascii (s : string) : string :=
  match s with
  | EmptyString => EmptyString
  | String c r =>
      if Str.code c <? 127 then String c (to_ascii r)
      else if Str.isspace c then String " " (to_ascii r)
      else "?"
  end.

Definition transform (s : string) : string :=
  if Str.all (fun c => Str.code c <? 128) s then s else to_ascii s.

Fixpoint c_lstrip (s : string) : string :=
  match s with
  | EmptyString => EmptyString
  | String c r => if c_isspace c then c_lstrip r else s
  end.

Fixpoint c_rstrip (s : string) : string :=
  match s with
  | EmptyString => EmptyString
  | String c r =>
      let r' := c_rstrip r in
      if c_isspace c && negb (Str.truthy r') then EmptyString
      else String c r'
  end.

(** Underscores may stand only between two digits; they are dropped.
    [prev] is the character before [s]. *)
Fixpoint drop_underscores (prev : ascii) (s : string) : option string :=
  match s with
  | EmptyString => if Ascii.eqb prev "_" then None else Some EmptyString
  | String c r =>
      if Ascii.eqb c "_" then
        if is_digit prev then drop_underscores c r else None
      else if Ascii.eqb prev "_" && negb (is_digit c) then None
      else option_map (String c) (drop_underscores c r)
  end.

(** The leading decimal digits of [s], as a number, with their count
    and the rest of [s]. *)
Fixpoint digits (acc : Z) (count : Z) (s : string) : Z * Z * string :=
  match s with
  | String c r =>
      if is_digit c then digits (10 * acc + (Str.code c - 48)) (count + 1) r
      else (acc, count, s)
  | EmptyString => (acc, count, s)
  end.

Definition sign (s : string) : bool * string :=
  match s with
  | String "-" r => (true, r)
  | String "+" r => (false, r)
  | _ => (false, s)
  end.

(** The exponent part: [e] or [E], a sign, digits; all of [s]. *)
Definition exponent (s : string) : option Z :=
  match s with
  | EmptyString => Some 0
  | String c r =>
      if Ascii.eqb c "e" || Ascii.eqb c "E" then
        let '(negative, r1) := sign r in
        match digits 0 0 r1 with
        | (e, count, EmptyString) =>
            if 0 <? count then Some (if negative then - e else e)
            else None
        | _ => None
        end
      else None
  end.

(** A decimal literal [digits . digits exponent], without its sign: the
    pair [(m, e)] stands for [m * 10^e]. *)
Definition decimal (s : string) : option (Z * Z) :=
  let '(m1, c1, r1) := digits 0 0 s in
  let '(m, c2, r2) :=
    match r1 with
    | String "." r => digits m1 0 r
    | _ => (m1, 0, r1)
    end in
  if 0 <? c1 + c2 then
    match exponent r2 with
    | Some e => Some (m, e - c2)
    | None => None
    end
  else None.

Definition of_decimal (negative : bool) (m e : Z) : t :=
  let x := if 0 <=? e then round_pos (m * 10 ^ e * one) 1
           else round_pos (m * one) (10 ^ (- e)) in
  if negative then neg x else x.

(** [float(s)] for a text [s]; [None] is a [ValueError]. *)
Definition of_string (s : string) : option t :=
  match drop_underscores "000" (c_rstrip (c_lstrip (transform s))) with
  | None => None
  | Some txt =>
      let '(negative, body) := sign txt in
      match decimal body with
      | Some (m, e) => Some (of_decimal negative m e)
      | None =>
          let name := Str.lower body in
          if String.eqb name "inf" || String.eqb name "infinity"
          then Some (Inf negative)
          else if String.eqb name "nan" then Some NaN
          else None
      end
  end.

End F64.

(** [float(text)] as a computation that may raise.  Python's message ends
    with the quoted text; the one caller discards it. *)
Definition float_of_text (text : string) : result F64.t :=
  match F64.of_string text with
  | Some f => Ok f
  | None => Raise (Exn ValueError "could not convert string to float")
  end.

(** ** Numbers: [int] or [float] *)

Inductive num : Type :=
| Int (z : Z)
| Flt (f : F64.t).

Definition to_float (a : num) : result F64.t :=
  match a with
  | Int z => F64.of_Z z
  | Flt f => Ok f
  end.

(** [a * b] *)
Definition num_mul (a b : num) : result num :=
  match a, b with
  | Int x, Int y => Ok (Int (x * y))
  | _, _ =>
      let* x := to_float a in
      let* y := to_float b in
      Ok (Flt (F64.mul x y))
  end.

(** [a - b] *)
Definition num_sub (a b : num) : result num :=
  match a, b with
  | Int x, Int y => Ok (Int (x - y))
  | _, _ =>
      let* x := to_float a in
      let* y := to_float b in
      Ok (Flt (F64.sub x y))
  end.

(** [a + b] *)
Definition num_add (a b : num) : result num :=
  match a, b with
  | Int x, Int y => Ok (Int (x + y))
  | _, _ =>
      let* x := to_float a in
      let* y := to_float b in
      Ok (Flt (F64.add x y))
  end.

(** [a > z], [a >= z] and [a == z] for an [int] [z]; Python compares an
    [int] and a [float] exactly. *)
Definition num_gt (a : num) (z : Z) : bool :=
  match a with
  | Int x => z <? x
  | Flt f => F64.gt_Z f z
  end.

Definition num_ge (a : num) (z : Z) : bool :=
  match a with
  | Int x => z <=? x
  | Flt f => F64.ge_Z f z
  end.

Definition num_eq (a : num) (z : Z) : bool :=
  match a with
  | Int x => x =? z
  | Flt f => F64.eq_Z f z
  end.

(** ** Configuration constants *)

Definition HARGA_SATUAN : Z := 100000.
Definition COMPANY_NAME : string := "TOKO KAOS KEREN".
Definition COMPANY_TAGLINE : string := "Quality T-Shirts for Everyone".
Definition COMPANY_ADDRESS : string := "Jl. Contoh No. 123, Jakarta, Indonesia".
Definition COMPANY_PHONE : string := "+62 812-3456-7890".
Definition COMPANY_EMAIL : string := "order@tokokaoskeren.com".
Definition COMPANY_WEBSITE : string := "www.tokokaoskeren.com".
Definition BANK_NAME : string := "Bank BCA".
Definition BANK_ACCOUNT : string := "1234567890".
Definition BANK_HOLDER : string := "PT TOKO KAOS KEREN".

(** What the program reads from outside a row: the formatted wall-clock
    time and the files that exist. *)
Record env : Type := Env {
  now : string;
  path_exists : string -> bool
}.

(** ** Helper functions *)

(** [clean_column_names(df)], on the column labels of the frame. *)
Definition clean_column_names (columns : list string) : list string :=
  map Str.strip columns.

Definition illegal_char (c : ascii) : bool :=
  existsb (Z.eqb (Str.code c)) [60; 62; 58; 34; 47; 92; 124; 63; 42].

Fixpoint replace_chars (p : ascii -> bool) (s : string) : string :=
  match s with
  | EmptyString => EmptyString
  | String c r => String (if p c then "_"%char else c) (replace_chars p r)
  end.

(** [re.sub(r'_+', '_', s)] *)
Fixpoint squeeze_underscores (s : string) : string :=
  match s with
  | EmptyString => EmptyString
  | String c r =>
      if Ascii.eqb c "_" && Str.startswith "_" r then squeeze_underscores r
      else String c (squeeze_underscores r)
  end.

Fixpoint lstrip_underscores (s : string) : string :=
  match s with
  | EmptyString => EmptyString
  | String c r => if Ascii.eqb c "_" then lstrip_underscores r else s
  end.

Fixpoint rstrip_underscores (s : string) : string :=
  match s with
  | EmptyString => EmptyString
  | String c r =>
      let r' := rstrip_underscores r in
      if Ascii.eqb c "_" && negb (Str.truthy r') then EmptyString
      else String c r'
  end.

(** [sanitize_filename(name)] *)
Definition sanitize_filename (name : string) : string :=
  let sanitized := replace_chars illegal_char name in
  let sanitized := replace_chars (Ascii.eqb " ") sanitized in
  let sanitized := squeeze_underscores sanitized in
  rstrip_underscores (lstrip_underscores sanitized).

(** The digits with a comma before every group of three, counted from the
    right: the grouping of the format [,]. *)
Fixpoint group3 (digits : string) : string :=
  match digits with
  | EmptyString => EmptyString
  | String c r =>
      String c
        (if negb (Nat.eqb (String.length r) 0)
            && Nat.eqb (String.length r mod 3) 0
         then String "," (group3 r) else group3 r)
  end.

(** [format(x, ',.0f')]: the float rounded to an integer, ties to even,
    with its sign and grouped digits.  A zero is printed without sign. *)
Definition format_f0 (x : F64.t) : string :=
  match x with
  | F64.Fin k =>
      (if k <? 0 then "-" else "")
        +:+ group3 (Str.of_Z (F64.rne (Z.abs k) F64.one))
  | F64.Inf negative => if negative then "-inf" else "inf"
  | F64.NaN => "nan"
  end.

(** [s.replace(a, b)] for two characters. *)
Fixpoint replace_char (a b : ascii) (s : string) : string :=
  match s with
  | EmptyString => EmptyString
  | String c r => String (if Ascii.eqb c a then b else c) (replace_char a b r)
  end.

(** [format_currency(amount)]: an [int] is converted to a float by the
    format [f]. *)
Definition format_currency (amount : num) : result string :=
  let* x := to_float amount in
  Ok (replace_char "," "." ("Rp " +:+ format_f0 x)).

(** The [for word in words] loop of [wrap_text]; the state is
    [(lines, current_line)]. *)
Fixpoint wrap_loop (max_chars : Z) (words : list string)
    (lines : list string) (current_line : string) : list string * string :=
  match words with
  | [] => (lines, current_line)
  | word :: rest =>
      if Str.len current_line + Str.len word + 1 <=? max_chars then
        wrap_loop max_chars rest lines
          (current_line +:+
             (if Str.truthy current_line then " " +:+ word else word))
      else
        wrap_loop max_chars rest
          (if Str.truthy current_line then (lines ++ [current_line])%list
           else lines)
          word
  end.

(** [wrap_text(text, max_chars)]; [None] is a null [text]. *)
Definition wrap_text (text : option string) (max_chars : Z) : string :=
  match text with
  | None => "-"
  | Some text =>
      if negb (Str.truthy text) then "-"
      else if Str.len text <=? max_chars then text
      else
        let '(lines, current_line) :=
          wrap_loop max_chars (Str.split text) [] EmptyString in
        let lines :=
          if Str.truthy current_line then (lines ++ [current_line])%list
          else lines in
        Str.join (String LF EmptyString) lines
  end.

(** The default of the parameter [max_chars]. *)
Definition wrap_text_max_chars : Z := 40.

(** [wrap_text(text)] *)
Definition wrap_text_default (text : option string) : string :=
  wrap_text text wrap_text_max_chars.

(** ** PDF generation *)

(** The accepted labels of each column, in priority order. *)
Definition ORDER_ID_NAMES : list string :=
  ["ORDER-ID"; "Order ID"; "ORDER ID"; "order-id"; "OrderID"].
Definition NAMA_NAMES : list string :=
  ["Nama Lengkap"; "Nama"; "Name"; "NAMA LENGKAP"].
Definition ALAMAT_NAMES : list string :=
  ["Alamat Pengiriman"; "Alamat"; "Address"; "ALAMAT PENGIRIMAN"].
Definition UKURAN_NAMES : list string :=
  ["Ukuran Kaos (size)"; "Ukuran"; "Size"; "UKURAN KAOS"; "Ukuran Kaos"].
Definition QTY_NAMES : list string :=
  ["Jumlah (QTY)"; "Jumlah"; "QTY"; "Qty"; "JUMLAH (QTY)"].
Definition METODE_NAMES : list string :=
  ["Metode Pembayaran"; "Metode"; "Payment Method"; "METODE PEMBAYARAN"].
Definition STATUS_NAMES : list string :=
  ["STATUS PEMBAYARAN"; "Status Pembayaran"; "Status"; "Payment Status"].
Definition TIMESTAMP_NAMES : list string :=
  ["Timestamp"; "Tanggal"; "Date"; "TIMESTAMP"].
Definition PHONE_NAMES : list string :=
  ["No HP"; "No. HP"; "Phone"; "Telepon"; "NO HP"; "Nomor HP"].

(** The local variables of [create_invoice_pdf] once the row is read and
    the prices are computed. *)
Record invoice : Type := Invoice {
  order_id : string;
  nama : string;
  alamat : string;
  ukuran : string;
  qty : Z;
  metode_bayar : string;
  status_bayar : string;
  timestamp : string;
  phone : string;
  total_harga : Z;
  is_dp : bool;
  jumlah_dibayar : num;
  sisa_tagihan : num
}.

(** [try: qty = int(float(qty_raw))  except (ValueError, TypeError): qty = 1] *)
Definition parse_qty (qty_raw : string) : result Z :=
  try_except (let* f := float_of_text qty_raw in F64.to_Z f)
    [ValueError; TypeError] 1.

(** The quantity of a row. *)
Definition resolve_qty (row : gmap string cell) : result Z :=
  parse_qty (get_column_value row QTY_NAMES "1").

(** The payment rules: what is paid and what remains. *)
Definition payment (total_harga : Z) (is_dp : bool) (status_bayar : string)
    : result (num * num) :=
  if is_dp then
    let* jumlah_dibayar := num_mul (Int total_harga) (Flt F64.half) in
    let* sisa_tagihan := num_sub (Int total_harga) jumlah_dibayar in
    Ok (jumlah_dibayar, sisa_tagihan)
  else
    let jumlah_dibayar :=
      if Str.contains "lunas" (Str.lower status_bayar)
      then Int total_harga else Int 0 in
    let* sisa_tagihan := num_sub (Int total_harga) jumlah_dibayar in
    Ok (jumlah_dibayar, sisa_tagihan).

(** The first part of [create_invoice_pdf]: extraction and prices. *)
Definition build_invoice (w : env) (row : gmap string cell) : result invoice :=
  let order_id := get_column_value row ORDER_ID_NAMES "-" in
  let nama := get_column_value row NAMA_NAMES "-" in
  let alamat := get_column_value row ALAMAT_NAMES "-" in
  let ukuran := get_column_value row UKURAN_NAMES "-" in
  let* qty := resolve_qty row in
  let metode_bayar := get_column_value row METODE_NAMES "-" in
  let status_bayar := get_column_value row STATUS_NAMES "-" in
  let timestamp := get_column_value row TIMESTAMP_NAMES (now w) in
  let phone := get_column_value row PHONE_NAMES "-" in
  let total_harga := HARGA_SATUAN * qty in
  let is_dp :=
    Str.contains "dp" (Str.lower metode_bayar)
    || Str.contains "50%" (Str.lower metode_bayar) in
  let* paid_due := payment total_harga is_dp status_bayar in
  Ok (Invoice order_id nama alamat ukuran qty metode_bayar status_bayar
        timestamp phone total_harga is_dp (fst paid_due) (snd paid_due)).

(** The flowables of the document.  Amounts are kept as numbers and the
    status as read: [format_currency] and [upper] only print them.
    Lengths of spacers are in millimetres. *)
Inductive logo_cell : Type :=
| LogoImage (path : string)
| LogoInitials (initials : string).

Inductive flowable : Type :=
| HeaderTable (logo : logo_cell) (name tagline address phone email : string)
| Spacer (mm : Z)
| Divider (thickness : Z)
| InvoiceHeader (title order_id : string)
| DateLine (timestamp : string)
| SectionTitle (title : string)
| CustomerTable (nama alamat phone : string)
| OrderTable (ukuran : string) (qty harga_satuan total_harga : Z)
| SummaryTable (rows : list (string * num))
| StatusBanner (lunas : bool) (status_bayar : string)
| Text (body : string)
| BankTable (bank account holder : string)
| FooterText (website : string).

(** [COMPANY_NAME[:2]] *)
Definition initials (name : string) : string := String.substring 0 2 name.

Definition summary_data (inv : invoice) : list (string * num) :=
  [("Total Harga:", Int (total_harga inv))] ++
  (if is_dp inv then
     [("DP 50% Dibayar:", jumlah_dibayar inv);
      ("SISA TAGIHAN:", sisa_tagihan inv)]
   else
     ("Jumlah Dibayar:", jumlah_dibayar inv) ::
     (if num_gt (sisa_tagihan inv) 0
      then [("SISA TAGIHAN:", sisa_tagihan inv)] else [])).

(** The second part of [create_invoice_pdf]: the list [content], in the
    order of its [append]s. *)
Definition build_content (w : env) (logo_path : option string)
    (inv : invoice) : list flowable :=
  let logo :=
    match logo_path with
    | Some path =>
        if Str.truthy path && path_exists w path then LogoImage path
        else LogoInitials (initials COMPANY_NAME)
    | None => LogoInitials (initials COMPANY_NAME)
    end in
  [ HeaderTable logo COMPANY_NAME COMPANY_TAGLINE COMPANY_ADDRESS
      COMPANY_PHONE COMPANY_EMAIL;
    Spacer 5;
    Divider 2;
    Spacer 3;
    InvoiceHeader "INVOICE / NOTA" (order_id inv);
    Spacer 3;
    DateLine (timestamp inv);
    Spacer 5;
    SectionTitle "INFORMASI PELANGGAN";
    CustomerTable (nama inv) (wrap_text (Some (alamat inv)) 50) (phone inv);
    Spacer 5;
    SectionTitle "DETAIL PESANAN";
    OrderTable (ukuran inv) (qty inv) HARGA_SATUAN (total_harga inv);
    Spacer 3;
    SummaryTable (summary_data inv);
    Spacer 5;
    StatusBanner (Str.contains "lunas" (Str.lower (status_bayar inv)))
      (status_bayar inv);
    Spacer 5;
    SectionTitle "METODE PEMBAYARAN";
    Text (metode_bayar inv);
    Spacer 3 ] ++
  (if num_gt (sisa_tagihan inv) 0
   then [BankTable BANK_NAME BANK_ACCOUNT BANK_HOLDER] else []) ++
  [ Spacer 10;
    Divider 1;
    Spacer 3;
    FooterText COMPANY_WEBSITE ].

(** The PDF written at [doc_path]. *)
Record document : Type := Document {
  doc_path : string;
  doc_content : list flowable
}.

(** [create_invoice_pdf(row, row_index, output_path, logo_path=None)] *)
Definition create_invoice_pdf (w : env) (row : gmap string cell)
    (row_index : Z) (output_path : string) (logo_path : option string)
    : result document :=
  let* inv := build_invoice w row in
  Ok (Document output_path (build_content w logo_path inv)).

(** *** Calling [create_invoice_pdf]

    Both call sites pass four positional arguments, which fill the four
    parameters; what remains of Python's argument binding is the check of
    the keyword arguments, taken in order: a keyword that names no
    parameter, or one that names a parameter already filled, is a
    [TypeError]. *)

Definition create_invoice_pdf_params : list string :=
  ["row"; "row_index"; "output_path"; "logo_path"].

Definition quoted (s : string) : string := "'" +:+ s +:+ "'".

Definition check_keywords (fname : string) (params : list string)
    (keywords : list string) : result unit :=
  match keywords with
  | [] => Ok tt
  | k :: _ =>
      if existsb (String.eqb k) params then
        Raise (Exn TypeError
                 (fname +:+ "() got multiple values for argument " +:+ quoted k))
      else
        Raise (Exn TypeError
                 (fname +:+ "() got an unexpected keyword argument "
                    +:+ quoted k))
  end.

(** [create_invoice_pdf(row, row_index, output_path, logo_path, k1=.., ..)] *)
Definition call_create_invoice_pdf (w : env) (row : gmap string cell)
    (row_index : Z) (output_path : string) (logo_path : option string)
    (keywords : list string) : result document :=
  let* _ := check_keywords "create_invoice_pdf" create_invoice_pdf_params
              keywords in
  create_invoice_pdf w row row_index output_path logo_path.

Fixpoint endswith_char (c : ascii) (s : string) : bool :=
  match s with
  | EmptyString => false
  | String a EmptyString => Ascii.eqb a c
  | String _ r => endswith_char c r
  end.

(** [os.path.join(directory, filename)] for a relative [filename]. *)
Definition path_join (directory filename : string) : string :=
  if negb (Str.truthy directory) || endswith_char "/" directory
  then directory +:+ filename
  else directory +:+ "/" +:+ filename.

Definition invoice_filename (order_id nama : string) : string :=
  "Invoice_" +:+ sanitize_filename order_id +:+ "_"
    +:+ sanitize_filename nama +:+ ".pdf".

(** ** Batch run: the loop of [main] *)

Record batch : Type := Batch {
  success_count : Z;
  error_count : Z;
  written : list document
}.

(** One turn of [for index, row in df.iterrows()]. *)
Definition main_step (w : env) (output_dir : string)
    (logo_path : option string) (st : batch) (index : Z)
    (row : gmap string cell) : batch :=
  let order_id :=
    get_column_value row ORDER_ID_NAMES ("ORDER" +:+ Str.of_Z (index + 1)) in
  let nama := get_column_value row NAMA_NAMES "Unknown" in
  let filename := invoice_filename order_id nama in
  let output_path := path_join output_dir filename in
  match call_create_invoice_pdf w row index output_path logo_path [] with
  | Ok doc =>
      Batch (success_count st + 1) (error_count st) (written st ++ [doc])
  | Raise _ =>
      Batch (success_count st) (error_count st + 1) (written st)
  end.

Fixpoint main_loop (w : env) (output_dir : string)
    (logo_path : option string) (st : batch) (index : Z)
    (rows : list (gmap string cell)) : batch :=
  match rows with
  | [] => st
  | row :: rest =>
      main_loop w output_dir logo_path
        (main_step w output_dir logo_path st index row) (index + 1) rest
  end.

(** The rows of the file carry the index 0, 1, 2, ... *)
Definition main_run (w : env) (output_dir : string)
    (logo_path : option string) (rows : list (gmap string cell)) : batch :=
  main_loop w output_dir logo_path (Batch 0 0 []) 0 rows.

(** ** Interactive run: the generation loop of the web application *)

Record generation : Type := Generation {
  generated_files : list (string * string);
  errors : list string
}.

(** One turn of [for idx, (index, row) in enumerate(selected_df.iterrows())]:
    the call carries the keyword [config]; any exception is caught and
    reported under the order id. *)
Definition web_step (w : env) (temp_dir : string) (st : generation)
    (idx : Z) (row : gmap string cell) : generation :=
  let order_id :=
    get_column_value row ORDER_ID_NAMES ("ORDER" +:+ Str.of_Z (idx + 1)) in
  let nama := get_column_value row NAMA_NAMES "Unknown" in
  let filename := invoice_filename order_id nama in
  let output_path := path_join temp_dir filename in
  match call_create_invoice_pdf w row idx output_path None ["config"] with
  | Ok _ =>
      Generation (generated_files st ++ [(filename, output_path)]) (errors st)
  | Raise e =>
      Generation (generated_files st)
        (errors st ++ [order_id +:+ ": " +:+ exn_msg e])
  end.

Fixpoint web_loop (w : env) (temp_dir : string) (st : generation)
    (idx : Z) (rows : list (gmap string cell)) : generation :=
  match rows with
  | [] => st
  | row :: rest =>
      web_loop w temp_dir (web_step w temp_dir st idx row) (idx + 1) rest
  end.

Definition web_generate (w : env) (temp_dir : string)
    (selected : list (gmap string cell)) : generation :=
  web_loop w temp_dir (Generation [] []) 0 selected.

(** ** Notions of the specification *)

(** A text of white space only (the empty text is one). *)
Definition blank_text (s : string) : Prop := Str.all Str.isspace s = true.

Definition starts_clean (v : string) : Prop :=
  match v with
  | EmptyString => True
  | String c _ => Str.isspace c = false
  end.

Definition ends_clean (v : string) : Prop :=
  forall u c, v = u +:+ String c "" -> Str.isspace c = false.

(** [v] is [s] without its leading and trailing white space. *)
Definition trimmed_of (s v : string) : Prop :=
  exists l r, s = l +:+ v +:+ r /\ blank_text l /\ blank_text r
              /\ starts_clean v /\ ends_clean v.

(** The candidate label [name] offers the value [v]: its cell exists, is
    not null, and [v] is its text trimmed, not empty. *)
Definition offers (row : gmap string cell) (name v : string) : Prop :=
  exists text, row !! name = Some (Val text) /\ trimmed_of text v /\ v <> "".

(** The candidate label [name] offers nothing: its cell is absent, null,
    empty or of white space only. *)
Definition unusable (row : gmap string cell) (name : string) : Prop :=
  row !! name = None \/ row !! name = Some NA
  \/ exists text, row !! name = Some (Val text) /\ blank_text text.

(** [sub] is a substring of [s]. *)
Definition occurs_in (sub s : string) : Prop :=
  exists pre post, s = pre +:+ sub +:+ post.

(** [jumlah_dibayar + sisa_tagihan == total_harga] *)
Definition balanced (inv : invoice) : Prop :=
  exists sum, num_add (jumlah_dibayar inv) (sisa_tagihan inv) = Ok sum
              /\ num_eq sum (total_harga inv) = true.

(** The [TypeError] of a call that carries the keyword [config]. *)
Definition config_error : exn :=
  Exn TypeError
    "create_invoice_pdf() got an unexpected keyword argument 'config'".

Definition is_bank_table (f : flowable) : bool :=
  match f with
  | BankTable _ _ _ => true
  | _ => false
  end.

(** The order id shown in the title row of a document. *)
Fixpoint title_order_id (content : list flowable) : option string :=
  match content with
  | [] => None
  | InvoiceHeader _ order_id :: _ => Some order_id
  | _ :: rest => title_order_id rest
  end.

(** A line of a text is a piece between two line feeds. *)
Definition lines_of (s : string) : list string := Str.split_on LF s.

Definition nonspace (c : ascii) : bool := negb (Str.isspace c).

(** A word: not empty, without white space. *)
Definition word_ok (w : string) : Prop :=
  w <> "" /\ Str.all nonspace w = true.

(** A text without a line feed. *)
Definition no_lf (line : string) : Prop :=
  Str.all (fun c => negb (Ascii.eqb c LF)) line = true.

(** ** Further notions *)

(** A character that [sanitize_filename] leaves alone, the underscore
    included: none of the nine replaced, and no space. *)
Definition plain_char (c : ascii) : bool :=
  negb (illegal_char c) && negb (Ascii.eqb c " ").

(** A name part as [sanitize_filename] delivers it: plain characters only,
    no two underscores in a row, none at either end. *)
Definition clean_name (s : string) : Prop :=
  Str.all plain_char s = true
  /\ Str.contains "__" s = false
  /\ Str.startswith "_" s = false
  /\ endswith_char "_" s = false.

(** A text as a field of an invoice shows it: not empty, no white space
    at either end. *)
Definition trimmed_text (v : string) : Prop :=
  v <> "" /\ starts_clean v /\ ends_clean v.



(** The [OverflowError] of [int] on an infinite float. *)
Definition overflow_error : exn :=
  Exn OverflowError "cannot convert float infinity to integer".


(** The text that [wrap_text] builds from the words of a text too long
    for one line. *)
Definition wrapped (max_chars : Z) (words : list string) : string :=
  let '(lines, current_line) := wrap_loop max_chars words [] EmptyString in
  Str.join (String LF EmptyString)
    (if Str.truthy current_line then (lines ++ [current_line])%list
     else lines).

(** The text without the character [a]. *)
Fixpoint delete_char (a : ascii) (s : string) : string :=
  match s with
  | EmptyString => EmptyString
  | String c r =>
      if Ascii.eqb c a then delete_char a r else String c (delete_char a r)
  end.

(** The number that a sequence of decimal digits writes, [acc] being the
    number of the digits already read. *)
Fixpoint horner (d : Decimal.uint) (acc : Z) : Z :=
  match d with
  | Decimal.Nil => acc
  | Decimal.D0 d => horner d (10 * acc)
  | Decimal.D1 d => horner d (10 * acc + 1)
  | Decimal.D2 d => horner d (10 * acc + 2)
  | Decimal.D3 d => horner d (10 * acc + 3)
  | Decimal.D4 d => horner d (10 * acc + 4)
  | Decimal.D5 d => horner d (10 * acc + 5)
  | Decimal.D6 d => horner d (10 * acc + 6)
  | Decimal.D7 d => horner d (10 * acc + 7)
  | Decimal.D8 d => horner d (10 * acc + 8)
  | Decimal.D9 d => horner d (10 * acc + 9)
  end.

(** A character of a printed integer: a digit or the minus sign. *)
Definition numeral_char (c : ascii) : bool :=
  F64.is_digit c || Ascii.eqb c "-".

(** [w] is the first word of [line]: the line is the word, or the word,
    a blank and more. *)
Definition first_word (w line : string) : Prop :=
  word_ok w /\ (line = w \/ exists rest, line = w +:+ " " +:+ rest).

(** No line of [lines] could have taken the first word of the line after
    it within [max_chars]. *)
Fixpoint breaks_needed (max_chars : Z) (lines : list string) : Prop :=
  match lines with
  | [] => True
  | a :: r =>
      match r with
      | [] => True
      | b :: _ =>
          exists w, first_word w b /\ max_chars < Str.len a + Str.len w + 1
      end
      /\ breaks_needed max_chars r
  end.

(** ** Rows used as examples *)

Definition demo_env : env := Env "2024-01-01 10:00:00" (fun _ => false).

Definition row_dp : gmap string cell :=
  <["Nama Lengkap" := Val "Jane Doe"]>
    (<["Jumlah (QTY)" := Val "2"]> (<["Metode Pembayaran" := Val "DP"]> ∅)).

Definition row_lunas : gmap string cell :=
  <["Jumlah (QTY)" := Val "1"]>
    (<["Metode Pembayaran" := Val "Transfer"]>
       (<["STATUS PEMBAYARAN" := Val "LUNAS"]> ∅)).

Definition row_zero : gmap string cell := <["Jumlah (QTY)" := Val "0"]> ∅.

Definition row_negative : gmap string cell :=
  <["Jumlah (QTY)" := Val "-1"]> ∅.

Definition row_huge_dp : gmap string cell :=
  <["Jumlah (QTY)" := Val "9007199254740994"]>
    (<["Metode Pembayaran" := Val "DP"]> ∅).

Definition row_inf : gmap string cell := <["Jumlah (QTY)" := Val "inf"]> ∅.

Definition row_no_id : gmap string cell :=
  <["Nama Lengkap" := Val "Jane Doe"]> ∅.

(** * Properties *)

(** ** Text lemmas *)

#[local] Arguments String.append : simpl nomatch.

Lemma str_app_nil_r (s : string) : s +:+ "" = s.
Proof. induction s as [|c s IH]; simpl; [reflexivity | now rewrite IH]. Qed.

Lemma str_app_assoc (a b c : string) : (a +:+ b) +:+ c = a +:+ (b +:+ c).
Proof. induction a as [|x a IH]; simpl; [reflexivity | now rewrite IH]. Qed.

Lemma str_length_app (a b : string) :
  String.length (a +:+ b) = (String.length a + String.length b)%nat.
Proof. induction a as [|x a IH]; simpl; [reflexivity | now rewrite IH]. Qed.

Lemma truthy_false (s : string) : Str.truthy s = false <-> s = "".
Proof. destruct s; simpl; split; congruence. Qed.

Lemma truthy_true (s : string) : Str.truthy s = true <-> s <> "".
Proof. destruct s; simpl; split; congruence. Qed.

Lemma lstrip_spec (s : string) :
  exists l, s = l +:+ Str.lstrip s /\ blank_text l
            /\ starts_clean (Str.lstrip s).
Proof.
  induction s as [|c s IH]; simpl.
  - exists "". repeat split.
  - destruct (Str.isspace c) eqn:E.
    + destruct IH as (l & Hs & Hl & Hc).
      exists (String c l). simpl. split; [congruence|].
      split; [|exact Hc]. unfold blank_text. simpl. now rewrite E.
    + exists "". repeat split. simpl. exact E.
Qed.

Lemma rstrip_spec (s : string) :
  exists r, s = Str.rstrip s +:+ r /\ blank_text r
            /\ ends_clean (Str.rstrip s)
            /\ (starts_clean s -> starts_clean (Str.rstrip s)).
Proof.
  induction s as [|c s IH]; simpl.
  - exists "". repeat split. intros u c H. destruct u; discriminate.
  - destruct IH as (r & Hs & Hr & He & _).
    destruct (Str.isspace c) eqn:E; simpl.
    + destruct (Str.rstrip s) as [|d t] eqn:R; simpl.
      * exists (String c r). simpl in Hs. subst s. repeat split.
        -- unfold blank_text. simpl. now rewrite E.
        -- intros u x H. destruct u; discriminate.
      * exists r. split; [simpl in *; congruence|]. split; [exact Hr|].
        split; [|intros H; simpl in H; congruence].
        intros u x H. destruct u as [|y u]; simpl in H.
        -- discriminate.
        -- injection H as -> H. eapply He. exact H.
    + exists r. split; [congruence|]. split; [exact Hr|].
      split; [|intros _; exact E].
      intros u x H. destruct u as [|y u]; simpl in H.
      * injection H as <- _. exact E.
      * injection H as -> H. eapply He. exact H.
Qed.

Lemma strip_trimmed (s : string) : trimmed_of s (Str.strip s).
Proof.
  unfold Str.strip.
  destruct (lstrip_spec s) as (l & Hs & Hl & Hc).
  destruct (rstrip_spec (Str.lstrip s)) as (r & Ht & Hr & He & Hk).
  exists l, r. repeat split; auto. rewrite <- Ht. exact Hs.
Qed.

Lemma blank_app (a b : string) :
  blank_text (a +:+ b) <-> blank_text a /\ blank_text b.
Proof.
  unfold blank_text. induction a as [|c a IH]; simpl.
  - tauto.
  - rewrite !andb_true_iff, IH. tauto.
Qed.

Lemma lstrip_blank (s : string) : Str.lstrip s = "" <-> blank_text s.
Proof.
  unfold blank_text. induction s as [|c s IH]; simpl.
  - tauto.
  - destruct (Str.isspace c); simpl; [exact IH | split; discriminate].
Qed.

Lemma rstrip_nonempty (s : string) :
  s <> "" -> starts_clean s -> Str.rstrip s <> "".
Proof.
  destruct s as [|c s]; [congruence|]. simpl. intros _ E. rewrite E. simpl.
  discriminate.
Qed.

Lemma strip_blank (s : string) : Str.strip s = "" <-> blank_text s.
Proof.
  unfold Str.strip. rewrite <- lstrip_blank.
  destruct (lstrip_spec s) as (l & _ & _ & Hc). split.
  - intros H. destruct (Str.lstrip s) eqn:E; [reflexivity|].
    exfalso. revert H. apply rstrip_nonempty; [discriminate | exact Hc].
  - intros ->. reflexivity.
Qed.

(** ** Field lookup *)

Lemma get_column_value_skip row pre rest default :
  Forall (unusable row) pre ->
  get_column_value row (pre ++ rest) default
  = get_column_value row rest default.
Proof.
  induction 1 as [|name pre Hu _ IH]; [reflexivity|]. simpl.
  destruct Hu as [-> | [-> | (text & -> & Hb)]]; try exact IH.
  apply strip_blank in Hb. rewrite Hb. simpl. exact IH.
Qed.

Lemma get_column_value_cases row names default :
  (Forall (unusable row) names
   /\ get_column_value row names default = default)
  \/ (exists pre name post,
        names = (pre ++ name :: post)%list
        /\ Forall (unusable row) pre
        /\ offers row name (get_column_value row names default)).
Proof.
  induction names as [|name names IH].
  - left. split; [constructor | reflexivity].
  - assert (Hskip : unusable row name ->
      (Forall (unusable row) (name :: names)
       /\ get_column_value row names default = default)
      \/ (exists pre n post,
            name :: names = (pre ++ n :: post)%list
            /\ Forall (unusable row) pre
            /\ offers row n (get_column_value row names default))).
    { intros Hu. destruct IH as [[Hall Hd] | (pre & n & post & Hn & Hp & Ho)].
      - left. split; [constructor; assumption | exact Hd].
      - right. exists (name :: pre), n, post. split; [simpl; congruence|].
        split; [constructor; assumption | exact Ho]. }
    simpl. destruct (row !! name) as [[|text]|] eqn:L.
    + apply Hskip. right. left. exact L.
    + destruct (Str.truthy (Str.strip text)) eqn:T.
      * right. exists [], name, names. split; [reflexivity|].
        split; [constructor|]. exists text. split; [exact L|].
        split; [apply strip_trimmed | now apply truthy_true].
      * apply Hskip. right. right. exists text. split; [exact L|].
        apply strip_blank. now apply truthy_false.
    + apply Hskip. left. exact L.
Qed.

Lemma trimmed_blank text v : trimmed_of text v -> blank_text text -> v = "".
Proof.
  intros (l & r & -> & _ & _ & Hc & _) Hb.
  apply blank_app in Hb as [_ Hb]. apply blank_app in Hb as [Hb _].
  destruct v as [|c v]; [reflexivity|].
  unfold blank_text in Hb. simpl in Hb, Hc. rewrite Hc in Hb. discriminate.
Qed.

Lemma offers_usable row name v : offers row name v -> ~ unusable row name.
Proof.
  intros (text & L & Ht & Hv) [H | [H | (text' & H & Hb)]];
    rewrite L in H; try discriminate.
  injection H as <-. apply Hv. eapply trimmed_blank; eassumption.
Qed.

(** C7.  [get_column_value] takes the candidate labels in the order given.
    Either every candidate is unusable in the row (absent, null, empty or
    white space only) and the default is returned; or some candidate is
    usable, those before the first such one are all unusable, and the value
    returned is the text of that first one without its leading and trailing
    white space.  The two cases exclude each other.  The function is a
    lookup: the row is read, never changed. *)
Theorem get_column_value_first_usable
    (row : gmap string cell) (names : list string) (default : string) :
  (Forall (unusable row) names
   /\ get_column_value row names default = default)
  \/ (~ Forall (unusable row) names
      /\ exists pre name post,
           names = (pre ++ name :: post)%list
           /\ Forall (unusable row) pre
           /\ offers row name (get_column_value row names default)).
Proof.
  destruct (get_column_value_cases row names default)
    as [H | (pre & name & post & Hn & Hp & Ho)]; [left; exact H | right].
  split; [|exists pre, name, post; auto].
  intros Hall. apply (offers_usable _ _ _ Ho).
  rewrite Forall_forall in Hall. apply Hall. rewrite Hn.
  apply elem_of_app. right. apply elem_of_cons. left. reflexivity.
Qed.

(** ** The interactive run *)

Lemma call_with_config w row idx path logo :
  call_create_invoice_pdf w row idx path logo ["config"] = Raise config_error.
Proof. reflexivity. Qed.

Lemma web_loop_fails w temp_dir rows : forall st idx,
  generated_files (web_loop w temp_dir st idx rows) = generated_files st
  /\ exists new,
       errors (web_loop w temp_dir st idx rows) = (errors st ++ new)%list
       /\ length new = length rows
       /\ Forall (fun e => exists order_id,
                    e = order_id +:+ ": " +:+ exn_msg config_error) new.
Proof.
  induction rows as [|row rows IH]; intros st idx; simpl.
  - split; [reflexivity|]. exists []. rewrite List.app_nil_r. auto.
  - destruct (IH (web_step w temp_dir st idx row) (idx + 1))
      as (Hg & new & He & Hl & Hf).
    unfold web_step in *. rewrite call_with_config in *. simpl in *.
    split; [exact Hg|].
    eexists (_ :: new). rewrite He, <- List.app_assoc. simpl.
    split; [reflexivity|]. split; [now rewrite Hl|].
    constructor; [eexists; reflexivity | exact Hf].
Qed.

(** C1.  In the interactive run every call of [create_invoice_pdf] carries
    the keyword [config], which is none of the four parameters [row],
    [row_index], [output_path], [logo_path]: the call raises a [TypeError]
    and builds no document.  So for every selection the list of generated
    files stays empty, and the error list gets one entry per selected row,
    made of an order id and the message of that [TypeError]. *)
Theorem web_generation_never_succeeds
    (w : env) (temp_dir : string) (selected : list (gmap string cell)) :
  existsb (String.eqb "config") create_invoice_pdf_params = false
  /\ (forall row idx path,
        call_create_invoice_pdf w row idx path None ["config"]
        = Raise config_error)
  /\ exn_cls config_error = TypeError
  /\ generated_files (web_generate w temp_dir selected) = []
  /\ length (errors (web_generate w temp_dir selected)) = length selected
  /\ Forall (fun e => exists order_id,
               e = order_id +:+ ": " +:+ exn_msg config_error)
       (errors (web_generate w temp_dir selected)).
Proof.
  split; [reflexivity|]. split; [intros; apply call_with_config|].
  split; [reflexivity|].
  destruct (web_loop_fails w temp_dir selected (Generation [] []) 0)
    as (Hg & new & He & Hl & Hf).
  unfold web_generate. rewrite Hg, He. simpl. auto.
Qed.

(** ** The bank transfer block *)

Lemma bank_table_present w logo_path inv :
  existsb is_bank_table (build_content w logo_path inv)
  = num_gt (sisa_tagihan inv) 0.
Proof.
  unfold build_content. rewrite !existsb_app.
  destruct (num_gt (sisa_tagihan inv) 0); reflexivity.
Qed.

Lemma num_eq_not_gt a z : num_eq a z = true -> num_gt a z = false.
Proof.
  destruct a as [x | [k | b |]]; simpl; try discriminate.
  - intros H. apply Z.eqb_eq in H. apply Z.ltb_ge. lia.
  - intros H. apply Z.eqb_eq in H. apply Z.ltb_ge. lia.
Qed.

(** ** Rounding to binary64 *)

Module F64Facts.
Import F64.

Lemma rne_exact q D : 0 < D -> rne (q * D) D = q.
Proof.
  intros HD. unfold rne.
  rewrite Z.div_mul by lia. rewrite Z.mod_mul by lia.
  assert (E : (2 * 0 ?= D) = Lt) by (apply Z.compare_lt_iff; lia).
  rewrite E. reflexivity.
Qed.

Lemma rne_bounds n D : 0 < D -> n / D <= rne n D <= n / D + 1.
Proof.
  intros HD. unfold rne.
  destruct (2 * (n mod D) ?= D); [destruct (Z.even (n / D))|..]; lia.
Qed.

(** The shift of [round_pos] divides a number of at most 53 significant
    bits. *)
Lemma shift_divides m t :
  0 <= m <= 2 ^ 53 -> 0 <= t ->
  exists k', m * 2 ^ t = k' * 2 ^ Z.max 0 (Z.log2 (m * 2 ^ t) - 52)
             /\ 0 <= k'.
Proof.
  intros Hm Ht.
  assert (H2t : 0 < 2 ^ t) by (apply Z.pow_pos_nonneg; lia).
  destruct (Z.eq_dec m 0) as [-> | Hm0].
  { exists 0. simpl. lia. }
  destruct (Z.eq_dec m (2 ^ 53)) as [-> | Hm53].
  - rewrite <- Z.pow_add_r by lia. rewrite Z.log2_pow2 by lia.
    rewrite Z.max_r by lia. exists (2 ^ 52). split; [|lia].
    rewrite <- Z.pow_add_r by lia. f_equal. lia.
  - assert (Hk : 0 < m * 2 ^ t) by nia.
    assert (Hlog : Z.log2 (m * 2 ^ t) < 53 + t).
    { apply Z.log2_lt_pow2; [exact Hk|]. rewrite Z.pow_add_r by lia. nia. }
    set (s := Z.max 0 (Z.log2 (m * 2 ^ t) - 52)).
    assert (Hs : 0 <= s <= t) by lia.
    exists (m * 2 ^ (t - s)). split.
    + rewrite <- Z.mul_assoc. rewrite <- Z.pow_add_r by lia. do 2 f_equal. lia.
    + assert (0 < 2 ^ (t - s)) by (apply Z.pow_pos_nonneg; lia). nia.
Qed.

Lemma round_pos_exact m t d :
  0 <= m <= 2 ^ 53 -> 0 <= t -> m * 2 ^ t < huge -> 0 < d ->
  round_pos (m * 2 ^ t * d) d = Fin (m * 2 ^ t).
Proof.
  intros Hm Ht Hh Hd. unfold round_pos.
  rewrite Z.div_mul by lia.
  destruct (shift_divides m t Hm Ht) as (k' & Hk & Hk').
  set (s := Z.max 0 (Z.log2 (m * 2 ^ t) - 52)) in *.
  assert (H2s : 0 < 2 ^ s) by (apply Z.pow_pos_nonneg; lia).
  replace (m * 2 ^ t * d) with (k' * (d * 2 ^ s)) by (rewrite Hk; ring).
  rewrite rne_exact by nia. rewrite <- Hk.
  apply Z.ltb_lt in Hh. now rewrite Hh.
Qed.

Lemma neg_involutive x : neg (neg x) = x.
Proof.
  destruct x as [k | b |]; simpl; [now rewrite Z.opp_involutive | | reflexivity].
  now rewrite negb_involutive.
Qed.

Lemma round_pos_zero d : 0 < d -> round_pos 0 d = Fin 0.
Proof.
  intros Hd. unfold round_pos. rewrite Z.div_0_l by lia. simpl Z.log2.
  rewrite Z.max_l by lia. change (2 ^ 0) with 1.
  pose proof (rne_exact 0 (d * 1) ltac:(lia)) as E. rewrite Z.mul_0_l in E.
  rewrite E. reflexivity.
Qed.

Lemma round_opp n d : 0 < d -> round (- n) d = neg (round n d).
Proof.
  intros Hd. unfold round.
  destruct (Z.ltb_spec n 0), (Z.ltb_spec (- n) 0); try lia.
  - now rewrite neg_involutive.
  - now rewrite Z.opp_involutive.
  - replace n with 0 by lia. change (- 0) with 0.
    rewrite round_pos_zero by lia. reflexivity.
Qed.

Lemma round_exact m t d :
  Z.abs m <= 2 ^ 53 -> 0 <= t -> Z.abs (m * 2 ^ t) < huge -> 0 < d ->
  round (m * 2 ^ t * d) d = Fin (m * 2 ^ t).
Proof.
  intros Hm Ht Hh Hd.
  assert (H2t : 0 < 2 ^ t) by (apply Z.pow_pos_nonneg; lia).
  destruct (Z.le_gt_cases 0 m) as [Hp | Hn].
  - unfold round. destruct (Z.ltb_spec (m * 2 ^ t * d) 0) as [Hlt | _]; [nia|].
    apply round_pos_exact; lia.
  - replace (m * 2 ^ t * d) with (- (- m * 2 ^ t * d)) by ring.
    rewrite round_opp by lia. unfold round.
    destruct (Z.ltb_spec (- m * 2 ^ t * d) 0) as [Hlt | _]; [nia|].
    rewrite round_pos_exact by lia. simpl. f_equal. ring.
Qed.

Lemma round_pos_shape n d k :
  0 <= n -> 0 < d -> round_pos n d = Fin k ->
  exists m, k = m * 2 ^ Z.max 0 (Z.log2 (n / d) - 52)
            /\ 0 <= m <= 2 ^ 53 /\ 0 <= k < huge.
Proof.
  intros Hn Hd. unfold round_pos.
  set (q := n / d). set (s := Z.max 0 (Z.log2 q - 52)).
  assert (Hq : 0 <= q) by (apply Z.div_pos; lia).
  assert (H2s : 0 < 2 ^ s) by (apply Z.pow_pos_nonneg; lia).
  destruct (Z.ltb_spec (rne n (d * 2 ^ s) * 2 ^ s) huge) as [Hlt | Hge];
    [|discriminate].
  intros [= <-]. exists (rne n (d * 2 ^ s)).
  pose proof (rne_bounds n (d * 2 ^ s) ltac:(nia)) as Hb.
  assert (Hdiv : n / (d * 2 ^ s) = q / 2 ^ s)
    by (unfold q; rewrite Z.div_div by lia; reflexivity).
  rewrite Hdiv in Hb.
  assert (Hlow : 0 <= q / 2 ^ s) by (apply Z.div_pos; lia).
  assert (Hup : q / 2 ^ s < 2 ^ 53).
  { apply Z.div_lt_upper_bound; [lia|].
    destruct (Z.eq_dec q 0) as [-> | Hq0]; [nia|].
    rewrite <- Z.pow_add_r by lia.
    apply Z.log2_lt_pow2; lia. }
  split; [reflexivity|]. split; [lia|]. split; [nia | exact Hlt].
Qed.

Lemma one_pos : 0 < one.
Proof. unfold one. apply Z.pow_pos_nonneg; lia. Qed.

Lemma one_double : one = 2 * 2 ^ 1073.
Proof. unfold one. rewrite <- Z.pow_succ_r by lia. reflexivity. Qed.

Lemma small_below_huge z : Z.abs z <= 2 ^ 53 -> Z.abs (z * 2 ^ 1074) < huge.
Proof.
  intros Hz. rewrite Z.abs_mul.
  assert (H : 0 < 2 ^ 1074) by (apply Z.pow_pos_nonneg; lia).
  rewrite (Z.abs_eq (2 ^ 1074)) by lia.
  apply Z.le_lt_trans with (2 ^ 53 * 2 ^ 1074); [nia|].
  rewrite <- Z.pow_add_r by lia. unfold huge.
  apply Z.pow_lt_mono_r; lia.
Qed.

(** [float(z)] is exact for an integer of at most 53 bits. *)
Lemma of_Z_exact z : Z.abs z <= 2 ^ 53 -> of_Z z = Ok (Fin (z * one)).
Proof.
  intros Hz. unfold of_Z, one.
  replace (z * 2 ^ 1074) with (z * 2 ^ 1074 * 1) at 1 by ring.
  rewrite round_exact; [reflexivity | exact Hz | lia | | lia].
  now apply small_below_huge.
Qed.

Lemma round_pos_int_shape z k :
  0 < z -> round_pos (z * one) 1 = Fin k ->
  exists m t, k = 2 * (m * 2 ^ t) /\ 0 <= m <= 2 ^ 53 /\ 0 <= t
              /\ 2 * (m * 2 ^ t) < huge.
Proof.
  intros Hz Hk. pose proof one_pos as H1.
  apply round_pos_shape in Hk as (m & Hk & Hm & Hh); [|nia|lia].
  rewrite Z.div_1_r in Hk.
  assert (Hlog : 1074 <= Z.log2 (z * one)).
  { replace 1074 with (Z.log2 one) by (unfold one; apply Z.log2_pow2; lia).
    apply Z.log2_le_mono. nia. }
  rewrite Z.max_r in Hk by lia.
  set (s := Z.log2 (z * one) - 52) in *.
  exists m, (s - 1).
  assert (E : 2 * (m * 2 ^ (s - 1)) = m * 2 ^ s).
  { replace s with (Z.succ (s - 1)) at 2 by lia.
    rewrite Z.pow_succ_r by lia. ring. }
  rewrite E. split; [exact Hk|]. split; [exact Hm|]. split; lia.
Qed.

Lemma round_pos_not_nan n d : round_pos n d <> NaN.
Proof. unfold round_pos. destruct (_ <? huge); discriminate. Qed.

(** The shape of [float(z)]: an even number of units, of at most 53
    significant bits, with the sign of [z]. *)
Lemma of_Z_shape z x :
  of_Z z = Ok x ->
  exists m t, x = Fin (2 * (m * 2 ^ t)) /\ Z.abs m <= 2 ^ 53 /\ 0 <= t
              /\ Z.abs (2 * (m * 2 ^ t)) < huge
              /\ (0 <= z -> 0 <= m) /\ (z <= 0 -> m <= 0).
Proof.
  unfold of_Z. intros H. pose proof one_pos as H1.
  destruct (Z.lt_trichotomy z 0) as [Hneg | [-> | Hpos]].
  - replace (z * one) with (- (- z * one)) in H by ring.
    rewrite round_opp in H by lia. unfold round in H.
    destruct (Z.ltb_spec (- z * one) 0) as [Hlt | _]; [nia|].
    destruct (round_pos (- z * one) 1) as [k | b |] eqn:R; simpl in H;
      try discriminate; [|now apply round_pos_not_nan in R].
    injection H as <-.
    apply round_pos_int_shape in R as (m & t & -> & Hm & Ht & Hh); [|lia].
    assert (0 < 2 ^ t) by (apply Z.pow_pos_nonneg; lia).
    exists (- m), t. split; [f_equal; ring|].
    split; [lia|]. split; [lia|].
    split; [|lia].
    replace (2 * (- m * 2 ^ t)) with (- (2 * (m * 2 ^ t))) by ring. nia.
  - rewrite Z.mul_0_l in H. change (round 0 1) with (round_pos 0 1) in H.
    rewrite round_pos_zero in H by lia. injection H as <-.
    exists 0, 0. repeat split; lia.
  - unfold round in H.
    destruct (Z.ltb_spec (z * one) 0) as [Hlt | _]; [nia|].
    destruct (round_pos (z * one) 1) as [k | b |] eqn:R; try discriminate;
      [|now apply round_pos_not_nan in R].
    injection H as <-.
    apply round_pos_int_shape in R as (m & t & -> & Hm & Ht & Hh); [|lia].
    assert (0 < 2 ^ t) by (apply Z.pow_pos_nonneg; lia).
    exists m, t. repeat split; lia.
Qed.

(** Halving [float(z)] is exact, and so are the difference and the sum
    that the payment rules take of the halves. *)
Lemma half_split z x :
  of_Z z = Ok x ->
  exists h, x = Fin (2 * h)
            /\ mul x half = Fin h
            /\ sub x (Fin h) = Fin h
            /\ add (Fin h) (Fin h) = x
            /\ (0 <= z -> 0 <= h) /\ (z <= 0 -> h <= 0).
Proof.
  intros H.
  apply of_Z_shape in H as (m & t & -> & Hm & Ht & Hh & Hp & Hn).
  assert (H2t : 0 < 2 ^ t) by (apply Z.pow_pos_nonneg; lia).
  exists (m * 2 ^ t). split; [reflexivity|].
  assert (Hh' : Z.abs (m * 2 ^ t) < huge) by lia.
  split; [|split; [|split; [|split; [intros; nia | intros; nia]]]].
  - unfold mul, half.
    replace (2 * (m * 2 ^ t) * 2 ^ 1073) with (m * 2 ^ t * one)
      by (rewrite one_double; ring).
    apply round_exact; auto using one_pos.
  - unfold sub, add, neg.
    replace (2 * (m * 2 ^ t) + - (m * 2 ^ t)) with (m * 2 ^ t * 1) by ring.
    apply round_exact; auto; lia.
  - unfold add.
    replace (m * 2 ^ t + m * 2 ^ t) with (m * 2 ^ (t + 1) * 1)
      by (rewrite Z.pow_add_r by lia; ring).
    replace (2 * (m * 2 ^ t)) with (m * 2 ^ (t + 1)) in *
      by (rewrite Z.pow_add_r by lia; ring).
    apply round_exact; auto; lia.
Qed.
End F64Facts.

(** ** Substrings *)

Lemma startswith_spec p s :
  Str.startswith p s = true <-> exists post, s = p +:+ post.
Proof.
  revert s. induction p as [|a p IH]; intros s; simpl.
  - split; [intros _; exists s; reflexivity | reflexivity].
  - destruct s as [|b s]; simpl.
    + split; [discriminate | intros (post & H); discriminate].
    + rewrite andb_true_iff, IH, Ascii.eqb_eq. split.
      * intros (-> & post & ->). exists post. reflexivity.
      * intros (post & [= -> ->]). split; [reflexivity | now exists post].
Qed.

Lemma contains_spec sub s : Str.contains sub s = true <-> occurs_in sub s.
Proof.
  induction s as [|c s IH]; simpl.
  - rewrite orb_false_r, startswith_spec. split.
    + intros (post & H). exists "", post. exact H.
    + intros (pre & post & H). destruct pre; [|discriminate]. now exists post.
  - rewrite orb_true_iff, startswith_spec, IH. split.
    + intros [(post & H) | (pre & post & ->)].
      * exists "", post. exact H.
      * exists (String c pre), post. reflexivity.
    + intros (pre & post & H). destruct pre as [|a pre]; simpl in H.
      * left. now exists post.
      * injection H as -> ->. right. now exists pre, post.
Qed.

(** ** Quantity and payment *)

Lemma build_invoice_inv w row inv :
  build_invoice w row = Ok inv ->
  resolve_qty row = Ok (qty inv)
  /\ total_harga inv = HARGA_SATUAN * qty inv
  /\ order_id inv = get_column_value row ORDER_ID_NAMES "-"
  /\ metode_bayar inv = get_column_value row METODE_NAMES "-"
  /\ status_bayar inv = get_column_value row STATUS_NAMES "-"
  /\ is_dp inv = Str.contains "dp" (Str.lower (metode_bayar inv))
                 || Str.contains "50%" (Str.lower (metode_bayar inv))
  /\ payment (total_harga inv) (is_dp inv) (status_bayar inv)
     = Ok (jumlah_dibayar inv, sisa_tagihan inv).
Proof.
  unfold build_invoice. destruct (resolve_qty row) as [q | e]; [|discriminate].
  simpl. destruct (payment _ _ _) as [[paid due] | e] eqn:P; [|discriminate].
  simpl. intros [= <-]. simpl. repeat split; try reflexivity. exact P.
Qed.

(** With a down payment both amounts are the same float, half of
    [float(total_harga)]. *)
Lemma payment_dp total status paid due :
  payment total true status = Ok (paid, due) ->
  exists h, F64.of_Z total = Ok (F64.Fin (2 * h))
            /\ paid = Flt (F64.Fin h) /\ due = Flt (F64.Fin h)
            /\ F64.add (F64.Fin h) (F64.Fin h) = F64.Fin (2 * h)
            /\ (0 <= total -> 0 <= h).
Proof.
  unfold payment, num_mul, num_sub, to_float.
  destruct (F64.of_Z total) as [x | e] eqn:E; [|discriminate].
  destruct (F64Facts.half_split _ _ E) as (h & -> & Hm & Hs & Ha & Hp & _).
  unfold bind. rewrite Hm, Hs. intros [= <- <-].
  exists h. auto.
Qed.


Lemma payment_full total status :
  payment total false status
  = if Str.contains "lunas" (Str.lower status)
    then Ok (Int total, Int 0) else Ok (Int 0, Int total).
Proof.
  unfold payment. destruct (Str.contains _ _); simpl.
  - now rewrite Z.sub_diag.
  - now rewrite Z.sub_0_r.
Qed.


Lemma payment_due total dp status paid due :
  payment total dp status = Ok (paid, due) ->
  num_sub (Int total) paid = Ok due.
Proof.
  unfold payment. destruct dp.
  - destruct (num_mul _ _) as [p | e]; [|discriminate]. cbn [bind].
    destruct (num_sub _ p) as [d | e] eqn:E; [|discriminate]. cbn [bind].
    intros [= <- <-]. exact E.
  - cbn [bind]. destruct (num_sub _ _) as [d | e] eqn:E; [|discriminate].
    cbn [bind]. intros [= <- <-]. exact E.
Qed.

Lemma payment_paid_dp total status paid due :
  payment total true status = Ok (paid, due) ->
  num_mul (Int total) (Flt F64.half) = Ok paid.
Proof.
  unfold payment. destruct (num_mul _ _) as [p | e]; [|discriminate].
  cbn [bind]. destruct (num_sub _ p) as [d | e]; [|discriminate].
  cbn [bind]. intros [= <- <-]. reflexivity.
Qed.

Lemma quot_one_ge k : 1 <= Z.quot k F64.one <-> F64.one <= k.
Proof.
  pose proof F64Facts.one_pos as H1.
  destruct (Z.le_gt_cases 0 k) as [Hk | Hk].
  - rewrite Z.quot_div_nonneg by lia. split; intros H.
    + destruct (Z.le_gt_cases F64.one k) as [|Hlt]; [assumption|].
      rewrite Z.div_small in H by lia. lia.
    + apply Z.div_le_lower_bound; lia.
  - assert (Z.quot k F64.one <= 0).
    { replace k with (- - k) by lia. rewrite Z.quot_opp_l by lia.
      pose proof (Z.quot_pos (- k) F64.one). lia. }
    lia.
Qed.

Lemma missing_gives_default row names default :
  Forall (unusable row) names -> get_column_value row names default = default.
Proof.
  intros H. rewrite <- (List.app_nil_r names).
  now rewrite get_column_value_skip.
Qed.

(** C2, as amended.  The quantity of a row is an integer.  A missing
    quantity cell, a text that is no float literal and the literal [nan] all
    give 1, not an error.  A finite float literal gives its value truncated
    toward zero, which is at least 1 exactly when the value is at least 1:
    nothing keeps the quantity from being 0 or negative.  The quantity of a
    built record is the one so read. *)
Theorem quantity_of_row (w : env) (row : gmap string cell) :
  (Forall (unusable row) QTY_NAMES -> resolve_qty row = Ok 1)
  /\ match F64.of_string (get_column_value row QTY_NAMES "1") with
     | None | Some F64.NaN => resolve_qty row = Ok 1
     | Some (F64.Fin k) =>
         resolve_qty row = Ok (Z.quot k F64.one)
         /\ (1 <= Z.quot k F64.one <-> F64.one <= k)
     | Some (F64.Inf _) => True
     end
  /\ (forall inv, build_invoice w row = Ok inv ->
                  resolve_qty row = Ok (qty inv)).
Proof.
  split; [|split].
  - intros H. unfold resolve_qty.
    rewrite (missing_gives_default _ _ _ H). vm_compute. reflexivity.
  - unfold resolve_qty, parse_qty, float_of_text.
    destruct (F64.of_string _) as [[k | b |] |]; cbn; auto using quot_one_ge.
  - intros inv H. now apply build_invoice_inv in H.
Qed.

(** C2, as stated, fails: a quantity cell holding 0 gives the quantity 0. *)
Lemma quantity_below_one :
  ~ (forall (w : env) (row : gmap string cell) (inv : invoice),
       build_invoice w row = Ok inv -> 1 <= qty inv).
Proof.
  intros H.
  assert (F : exists inv, build_invoice demo_env row_zero = Ok inv
                          /\ qty inv = 0).
  { eexists. split; [vm_compute; reflexivity|]. vm_compute. reflexivity. }
  destruct F as (inv & E & F). apply H in E. lia.
Qed.

(** C6.  The examples of the specification hold: "3" gives 3, "2.0"
    gives 2, "abc" gives 1 and a missing quantity gives 1.  But parsing can
    raise to the caller: a text that [float] reads as an infinity ("inf",
    "1e999") makes [int] raise an [OverflowError], which the handler of
    [ValueError] and [TypeError] lets through, and the row fails. *)
Theorem quantity_parse_examples :
  parse_qty "3" = Ok 3
  /\ parse_qty "2.0" = Ok 2
  /\ parse_qty "abc" = Ok 1
  /\ resolve_qty ∅ = Ok 1
  /\ parse_qty "inf"
     = Raise (Exn OverflowError "cannot convert float infinity to integer")
  /\ parse_qty "1e999"
     = Raise (Exn OverflowError "cannot convert float infinity to integer")
  /\ (forall s b, F64.of_string s = Some (F64.Inf b) ->
        parse_qty s
        = Raise (Exn OverflowError "cannot convert float infinity to integer"))
  /\ (forall w idx path logo,
        create_invoice_pdf w row_inf idx path logo
        = Raise (Exn OverflowError "cannot convert float infinity to integer")).
Proof.
  do 6 (split; [vm_compute; reflexivity|]). split.
  - intros s b H. unfold parse_qty, float_of_text. rewrite H. reflexivity.
  - intros w idx path logo. vm_compute. reflexivity.
Qed.

(** C3.  The record is a down payment exactly when the payment-method
    text, lowercased, has "dp" or "50%" as a substring.  With a down payment
    the amount paid is the Python product [total_harga * 0.5], a float, which
    is exactly half of the total when the total has at most 53 bits;
    otherwise it is the total if the payment-status text, lowercased, has
    "lunas" as a substring, and 0 if not. *)
Theorem payment_classification
    (w : env) (row : gmap string cell) (inv : invoice) :
  build_invoice w row = Ok inv ->
  metode_bayar inv = get_column_value row METODE_NAMES "-"
  /\ status_bayar inv = get_column_value row STATUS_NAMES "-"
  /\ (is_dp inv = true <->
        occurs_in "dp" (Str.lower (metode_bayar inv))
        \/ occurs_in "50%" (Str.lower (metode_bayar inv)))
  /\ (is_dp inv = true ->
        num_mul (Int (total_harga inv)) (Flt F64.half)
        = Ok (jumlah_dibayar inv)
        /\ (Z.abs (total_harga inv) <= 2 ^ 53 ->
            jumlah_dibayar inv
            = Flt (F64.Fin (total_harga inv * 2 ^ 1073))))
  /\ (is_dp inv = false ->
        (occurs_in "lunas" (Str.lower (status_bayar inv)) ->
         jumlah_dibayar inv = Int (total_harga inv))
        /\ (~ occurs_in "lunas" (Str.lower (status_bayar inv)) ->
            jumlah_dibayar inv = Int 0)).
Proof.
  intros H.
  apply build_invoice_inv in H as (_ & _ & _ & Hm & Hs & Hdp & P).
  split; [exact Hm|]. split; [exact Hs|]. split; [|split].
  - rewrite Hdp, orb_true_iff, !contains_spec. reflexivity.
  - intros D. rewrite D in P. split; [eapply payment_paid_dp; exact P|].
    intros Hsmall.
    apply payment_dp in P as (h & E & -> & _).
    rewrite (F64Facts.of_Z_exact _ Hsmall) in E.
    assert (E' : total_harga inv * F64.one = 2 * h) by congruence.
    rewrite F64Facts.one_double in E'. do 2 f_equal. lia.
  - intros D. rewrite D, payment_full in P.
    destruct (Str.contains "lunas" _) eqn:C; injection P as <- _.
    + split; [reflexivity|]. intros N. exfalso. apply N.
      now apply contains_spec.
    + split; [|reflexivity]. intros O. apply contains_spec in O. congruence.
Qed.

Lemma payment_classification_witness :
  exists inv,
    build_invoice demo_env row_dp = Ok inv
    /\ is_dp inv = true
    /\ total_harga inv = 200000
    /\ jumlah_dibayar inv = Flt (F64.Fin (100000 * F64.one)).
Proof.
  eexists. split; [vm_compute; reflexivity|].
  split; [reflexivity|]. split; [reflexivity|].
  pose proof (payment_classification demo_env row_dp _
                ltac:(vm_compute; reflexivity)) as (_ & _ & _ & Hdp & _).
  destruct (Hdp eq_refl) as (_ & Hhalf).
  rewrite Hhalf by (vm_compute; discriminate).
  vm_compute. reflexivity.
Defined.

(** C4, as amended.  For every row whose record is built the total is the
    unit price times the quantity, and the amount due is the total minus the
    amount paid in both branches.  Paid plus due equals the total for every
    record without a down payment, and for every down payment whose total has
    at most 53 bits: the half is a binary64 float. *)
Theorem totals_balance (w : env) (row : gmap string cell) (inv : invoice) :
  build_invoice w row = Ok inv ->
  total_harga inv = HARGA_SATUAN * qty inv
  /\ num_sub (Int (total_harga inv)) (jumlah_dibayar inv)
     = Ok (sisa_tagihan inv)
  /\ (is_dp inv = false \/ Z.abs (total_harga inv) <= 2 ^ 53 ->
      balanced inv).
Proof.
  intros H.
  apply build_invoice_inv in H as (_ & Ht & _ & _ & _ & _ & P).
  split; [exact Ht|]. split; [eapply payment_due; exact P|].
  unfold balanced. destruct (is_dp inv).
  - intros [D | Hsmall]; [discriminate|].
    apply payment_dp in P as (h & E & -> & -> & Ha & _).
    rewrite (F64Facts.of_Z_exact _ Hsmall) in E.
    assert (E' : total_harga inv * F64.one = 2 * h) by congruence.
    exists (Flt (F64.Fin (2 * h))). unfold num_add, to_float, bind.
    rewrite Ha. split; [reflexivity|]. unfold num_eq, F64.eq_Z.
    apply Z.eqb_eq. lia.
  - intros _. rewrite payment_full in P.
    destruct (Str.contains _ _); injection P as <- <-; eexists;
      (split; [reflexivity|]); simpl; apply Z.eqb_eq; lia.
Qed.

Lemma totals_balance_witness :
  exists inv, build_invoice demo_env row_dp = Ok inv /\ balanced inv.
Proof.
  eexists. split; [vm_compute; reflexivity|].
  apply (totals_balance demo_env row_dp);
    [vm_compute; reflexivity | right; vm_compute; discriminate].
Defined.

(** C4, as stated, fails: with a down payment on 9007199254740994 items
    the total has more than 53 bits and paid plus due is not the total. *)
Lemma totals_unbalanced :
  ~ (forall (w : env) (row : gmap string cell) (inv : invoice),
       build_invoice w row = Ok inv ->
       total_harga inv = HARGA_SATUAN * qty inv /\ balanced inv).
Proof.
  intros H.
  assert (F : exists inv sum,
            build_invoice demo_env row_huge_dp = Ok inv
            /\ num_add (jumlah_dibayar inv) (sisa_tagihan inv) = Ok sum
            /\ num_eq sum (total_harga inv) = false).
  { do 2 eexists. split; [vm_compute; reflexivity|].
    split; [vm_compute; reflexivity|]. vm_compute. reflexivity. }
  destruct F as (inv & sum & E & Hadd & Hne).
  destruct (H _ _ _ E) as (_ & sum' & Hadd' & Heq).
  rewrite Hadd in Hadd'. injection Hadd' as <-. congruence.
Qed.

(** C5, as amended.  For every row whose record is built with a quantity
    that is not negative, the amount due is not negative; without a down
    payment and with a status that has "lunas" it is exactly 0.  Nothing
    keeps the quantity, and with it the amount due, from being negative. *)
Theorem amount_due_nonnegative
    (w : env) (row : gmap string cell) (inv : invoice) :
  build_invoice w row = Ok inv ->
  0 <= qty inv ->
  num_ge (sisa_tagihan inv) 0 = true
  /\ (is_dp inv = false ->
      occurs_in "lunas" (Str.lower (status_bayar inv)) ->
      sisa_tagihan inv = Int 0).
Proof.
  intros H Hq.
  apply build_invoice_inv in H as (_ & Ht & _ & _ & _ & _ & P).
  assert (Htot : 0 <= total_harga inv)
    by (rewrite Ht; unfold HARGA_SATUAN; lia).
  destruct (is_dp inv).
  - apply payment_dp in P as (h & _ & _ & -> & _ & Hh).
    split; [|discriminate]. simpl. rewrite Z.mul_0_l.
    apply Z.leb_le. auto.
  - rewrite payment_full in P.
    destruct (Str.contains "lunas" _) eqn:C; injection P as _ <-.
    + split; reflexivity.
    + split; [simpl; now apply Z.leb_le|].
      intros _ O. apply contains_spec in O. congruence.
Qed.

Lemma amount_due_nonnegative_witness :
  exists inv,
    build_invoice demo_env row_lunas = Ok inv
    /\ num_ge (sisa_tagihan inv) 0 = true.
Proof.
  eexists. split; [vm_compute; reflexivity|].
  edestruct (amount_due_nonnegative demo_env row_lunas) as (Hge & _);
    [vm_compute; reflexivity | vm_compute; discriminate |].
  exact Hge.
Defined.

(** C5, as stated, fails: a quantity cell holding -1 gives the amount due
    -100000. *)
Lemma amount_due_negative :
  ~ (forall (w : env) (row : gmap string cell) (inv : invoice),
       build_invoice w row = Ok inv -> num_ge (sisa_tagihan inv) 0 = true).
Proof.
  intros H.
  assert (F : exists inv, build_invoice demo_env row_negative = Ok inv
                          /\ sisa_tagihan inv = Int (-100000)).
  { eexists. split; [vm_compute; reflexivity|]. vm_compute. reflexivity. }
  destruct F as (inv & E & F). apply H in E. rewrite F in E. discriminate.
Qed.

(** ** The bank transfer block and the title row *)

Lemma create_invoice_pdf_inv w row idx path logo doc :
  create_invoice_pdf w row idx path logo = Ok doc ->
  exists inv, build_invoice w row = Ok inv
              /\ doc = Document path (build_content w logo inv).
Proof.
  unfold create_invoice_pdf.
  destruct (build_invoice w row) as [inv | e]; [|discriminate].
  cbn [bind]. intros [= <-]. now exists inv.
Qed.

(** C10.  The bank transfer block is in the document exactly when the
    amount due is greater than 0, and it is the only block of its kind; so
    it is left out when the amount due equals 0, as for a record that is
    fully paid and no down payment. *)
Theorem bank_block_only_when_due
    (w : env) (row : gmap string cell) (idx : Z) (path : string)
    (logo : option string) (doc : document) (inv : invoice) :
  create_invoice_pdf w row idx path logo = Ok doc ->
  build_invoice w row = Ok inv ->
  (In (BankTable BANK_NAME BANK_ACCOUNT BANK_HOLDER) (doc_content doc)
   <-> num_gt (sisa_tagihan inv) 0 = true)
  /\ existsb is_bank_table (doc_content doc) = num_gt (sisa_tagihan inv) 0
  /\ (num_eq (sisa_tagihan inv) 0 = true ->
      existsb is_bank_table (doc_content doc) = false)
  /\ (is_dp inv = false ->
      occurs_in "lunas" (Str.lower (status_bayar inv)) ->
      jumlah_dibayar inv = Int (total_harga inv)
      /\ sisa_tagihan inv = Int 0
      /\ existsb is_bank_table (doc_content doc) = false).
Proof.
  intros Hdoc Hinv.
  apply create_invoice_pdf_inv in Hdoc as (inv' & Hinv' & ->).
  rewrite Hinv in Hinv'. injection Hinv' as <-. cbn [doc_content].
  pose proof (bank_table_present w logo inv) as Hb.
  split; [|split; [exact Hb|split]].
  - rewrite <- Hb. split.
    + intros Hin. apply existsb_exists. eexists. split; [exact Hin|].
      reflexivity.
    + intros He. rewrite Hb in He. unfold build_content. rewrite He.
      apply in_or_app. right. apply in_or_app. left. left. reflexivity.
  - intros Hz. rewrite Hb. now apply num_eq_not_gt.
  - intros D O.
    apply build_invoice_inv in Hinv as (_ & _ & _ & _ & _ & _ & P).
    rewrite D, payment_full in P. apply contains_spec in O. rewrite O in P.
    injection P as Hp Hd. rewrite Hb, <- Hp, <- Hd. repeat split.
Qed.

Lemma bank_block_only_when_due_witness :
  exists doc inv,
    create_invoice_pdf demo_env row_lunas 0 "out/a.pdf" None = Ok doc
    /\ build_invoice demo_env row_lunas = Ok inv
    /\ existsb is_bank_table (doc_content doc) = false.
Proof.
  eexists. eexists. split; [vm_compute; reflexivity|].
  split; [vm_compute; reflexivity|].
  edestruct (bank_block_only_when_due demo_env row_lunas 0 "out/a.pdf" None)
    as (_ & _ & Hzero & _);
    [vm_compute; reflexivity | vm_compute; reflexivity |].
  apply Hzero. vm_compute. reflexivity.
Defined.

(** C8.  A row without an order id gets the placeholder [ORDER] followed
    by the row number in the file name that [main] builds, but not in the
    document: [create_invoice_pdf] falls back to a dash and never reads its
    [row_index].  So the title row and the file name differ. *)
Theorem order_id_fallback_differs :
  (forall w row inv,
     Forall (unusable row) ORDER_ID_NAMES ->
     build_invoice w row = Ok inv -> order_id inv = "-")
  /\ map doc_path
       (written (main_run demo_env "output_invoices" None [row_no_id]))
     = ["output_invoices/Invoice_ORDER1_Jane_Doe.pdf"]
  /\ map (fun doc => title_order_id (doc_content doc))
       (written (main_run demo_env "output_invoices" None [row_no_id]))
     = [Some "-"].
Proof.
  split; [|split].
  - intros w row inv Hu H.
    apply build_invoice_inv in H as (_ & _ & -> & _).
    now apply missing_gives_default.
  - vm_compute. reflexivity.
  - vm_compute. reflexivity.
Qed.

(** ** Words and lines *)

Lemma all_app p a b : Str.all p (a +:+ b) = Str.all p a && Str.all p b.
Proof.
  induction a as [|c a IH]; simpl; [reflexivity|].
  now rewrite IH, andb_assoc.
Qed.

Lemma split_go_app_space cur a c b :
  Str.isspace c = true ->
  Str.split_go cur (a +:+ String c b)
  = (Str.split_go cur a ++ Str.split_go "" b)%list.
Proof.
  intros Hc. revert cur. induction a as [|x a IH]; intros cur; simpl.
  - rewrite Hc. destruct (Str.truthy cur); reflexivity.
  - destruct (Str.isspace x); [|apply IH].
    destruct (Str.truthy cur); simpl; now rewrite IH.
Qed.

Lemma split_app_space a c b :
  Str.isspace c = true ->
  Str.split (a +:+ String c b) = (Str.split a ++ Str.split b)%list.
Proof. apply split_go_app_space. Qed.

Lemma split_go_word cur w :
  Str.all nonspace w = true ->
  Str.split_go cur w
  = if Str.truthy (cur +:+ w) then [cur +:+ w] else [].
Proof.
  revert cur. induction w as [|c w IH]; intros cur; simpl.
  - intros _. now rewrite str_app_nil_r.
  - intros H. apply andb_true_iff in H as [Hc Hw].
    unfold nonspace in Hc. apply negb_true_iff in Hc. rewrite Hc.
    rewrite IH by exact Hw. now rewrite str_app_assoc.
Qed.

Lemma split_word w : word_ok w -> Str.split w = [w].
Proof.
  intros [Hne Hw]. unfold Str.split. rewrite split_go_word by exact Hw.
  simpl. apply truthy_true in Hne. now rewrite Hne.
Qed.

Lemma split_go_ok cur s :
  Str.all nonspace cur = true -> Forall word_ok (Str.split_go cur s).
Proof.
  revert cur. induction s as [|c s IH]; intros cur Hcur; simpl.
  - destruct (Str.truthy cur) eqn:T; constructor; [|constructor].
    split; [now apply truthy_true | exact Hcur].
  - destruct (Str.isspace c) eqn:Hc.
    + destruct (Str.truthy cur) eqn:T; [constructor|]; try now apply IH.
      split; [now apply truthy_true | exact Hcur].
    + apply IH. rewrite all_app, Hcur. simpl. unfold nonspace.
      now rewrite Hc.
Qed.

Lemma split_words_ok s : Forall word_ok (Str.split s).
Proof. now apply split_go_ok. Qed.

Lemma split_join_lf L :
  Str.split (Str.join (String LF "") L) = concat (map Str.split L).
Proof.
  induction L as [|x L IH]; [reflexivity|].
  destruct L as [|y L].
  - simpl. now rewrite List.app_nil_r.
  - change (Str.join (String LF "") (x :: y :: L))
      with (x +:+ String LF (Str.join (String LF "") (y :: L))).
    rewrite split_app_space by reflexivity. now rewrite IH.
Qed.

Lemma word_no_lf w : Str.all nonspace w = true -> no_lf w.
Proof.
  unfold no_lf. induction w as [|c w IH]; simpl; [reflexivity|].
  intros H. apply andb_true_iff in H as [Hc Hw]. rewrite IH by exact Hw.
  rewrite andb_true_r. unfold nonspace in Hc. apply negb_true_iff in Hc.
  apply negb_true_iff. destruct (Ascii.eqb c LF) eqn:E; [|reflexivity].
  apply Ascii.eqb_eq in E. subst c. discriminate.
Qed.

Lemma split_on_go_nosep sep cur x rest :
  Str.all (fun c => negb (Ascii.eqb c sep)) x = true ->
  Str.split_on_go sep cur (x +:+ rest)
  = Str.split_on_go sep (cur +:+ x) rest.
Proof.
  revert cur. induction x as [|c x IH]; intros cur; simpl.
  - intros _. now rewrite str_app_nil_r.
  - intros H. apply andb_true_iff in H as [Hc Hx].
    apply negb_true_iff in Hc. rewrite Hc, IH by exact Hx.
    now rewrite str_app_assoc.
Qed.

Lemma lines_of_join L :
  L <> [] -> Forall no_lf L -> lines_of (Str.join (String LF "") L) = L.
Proof.
  unfold lines_of, Str.split_on.
  induction L as [|x L IH]; [congruence|]. intros _ H.
  apply Forall_cons_iff in H as [Hx HL]. destruct L as [|y L].
  - simpl. rewrite <- (str_app_nil_r x) at 1.
    now rewrite split_on_go_nosep by exact Hx.
  - change (Str.join (String LF "") (x :: y :: L))
      with (x +:+ String LF (Str.join (String LF "") (y :: L))).
    rewrite split_on_go_nosep by exact Hx.
    change (Str.split_on_go LF ("" +:+ x)
              (String LF (Str.join (String LF "") (y :: L))))
      with (x :: Str.split_on_go LF ""
                   (Str.join (String LF "") (y :: L))).
    f_equal. apply IH; [discriminate | exact HL].
Qed.

Lemma split_on_go_len sep cur s :
  Forall (fun l => (String.length l
                    <= String.length cur + String.length s)%nat)
    (Str.split_on_go sep cur s).
Proof.
  revert cur. induction s as [|c s IH]; intros cur; simpl.
  - constructor; [lia | constructor].
  - destruct (Ascii.eqb c sep).
    + constructor; [lia|].
      eapply List.Forall_impl; [|apply IH]. simpl. intros l Hl. simpl in Hl. lia.
    + eapply List.Forall_impl; [|apply IH]. simpl. intros l Hl.
      rewrite str_length_app in Hl. simpl in Hl. lia.
Qed.

(** ** Wrapping *)

Lemma split_append_word cur word :
  word_ok word ->
  Str.split (cur +:+ (if Str.truthy cur then String " " word else word))
  = (Str.split cur ++ [word])%list.
Proof.
  intros Hw. destruct cur as [|c cur].
  - simpl. now apply split_word.
  - change (String c cur +:+
              (if Str.truthy (String c cur) then String " " word else word))
      with (String c cur +:+ String " " word).
    rewrite split_app_space by reflexivity.
    rewrite (split_word word) by exact Hw. reflexivity.
Qed.

Lemma wrap_loop_words max ws : forall lines cur L c',
  Forall word_ok ws ->
  wrap_loop max ws lines cur = (L, c') ->
  (concat (map Str.split L) ++ Str.split c')%list
  = (concat (map Str.split lines) ++ Str.split cur ++ ws)%list.
Proof.
  induction ws as [|word ws IH]; intros lines cur L c' Hws; simpl.
  - intros [= <- <-]. now rewrite List.app_nil_r.
  - apply Forall_cons_iff in Hws as [Hw Hws].
    destruct (_ <=? max).
    + intros W. rewrite (IH _ _ _ _ Hws W).
      rewrite split_append_word by exact Hw.
      now rewrite <- !List.app_assoc.
    + intros W. rewrite (IH _ _ _ _ Hws W).
      rewrite (split_word word) by exact Hw.
      destruct cur as [|c cur]; simpl; [reflexivity|].
      rewrite map_app, concat_app. simpl.
      rewrite List.app_nil_r, <- List.app_assoc. reflexivity.
Qed.

Lemma wrap_loop_lines max ws0 ws : forall lines cur L c',
  (forall w, In w ws -> In w ws0) ->
  Forall word_ok ws ->
  Forall (fun l => no_lf l /\ (Str.len l <= max \/ In l ws0)) lines ->
  (cur = "" \/ (no_lf cur /\ (Str.len cur <= max \/ In cur ws0))) ->
  wrap_loop max ws lines cur = (L, c') ->
  Forall (fun l => no_lf l /\ (Str.len l <= max \/ In l ws0)) L
  /\ (c' = "" \/ (no_lf c' /\ (Str.len c' <= max \/ In c' ws0))).
Proof.
  induction ws as [|word ws IH]; intros lines cur L c' Hin Hws Hl Hc; simpl.
  - intros [= <- <-]. auto.
  - apply Forall_cons_iff in Hws as [[Hne Hw] Hws].
    assert (Hin' : forall w, In w ws -> In w ws0)
      by (intros w Hw'; apply Hin; now right).
    destruct (Z.leb_spec (Str.len cur + Str.len word + 1) max) as [Hle | Hgt].
    + apply IH; auto. right. destruct cur as [|c cur]; simpl.
      * split; [now apply word_no_lf|]. left. unfold Str.len in *.
        simpl in Hle. lia.
      * destruct Hc as [Hc | [Hc _]]; [discriminate|]. split.
        -- unfold no_lf in *.
           change (String c (cur +:+ String " " word))
             with ((String c cur) +:+ String " " word).
           rewrite all_app, Hc. simpl. now apply word_no_lf.
        -- left. unfold Str.len in *. simpl in *.
           rewrite str_length_app. simpl. lia.
    + apply IH; auto.
      * destruct cur as [|c cur]; simpl; [exact Hl|].
        apply Forall_app. split; [exact Hl|]. constructor; [|constructor].
        destruct Hc as [Hc | Hc]; [discriminate | exact Hc].
      * right. split; [now apply word_no_lf|]. right. apply Hin. now left.
Qed.

(** C9, as amended.  The width of [wrap_text] defaults to 40; the address
    of an invoice is wrapped with the width 50 given.  For every text and
    every width of at least 1, each line of the result is no longer than the
    width, or is one word of the text that is itself longer than the width;
    and the words of a text that is not empty come out unchanged and in
    order: none is split. *)
Theorem wrap_text_lines (text : option string) (max_chars : Z) :
  1 <= max_chars ->
  Forall (fun line =>
            Str.len line <= max_chars
            \/ (max_chars < Str.len line
                /\ exists s, text = Some s /\ In line (Str.split s)))
    (lines_of (wrap_text text max_chars))
  /\ (forall s, text = Some s -> s <> "" ->
        Str.split (wrap_text text max_chars) = Str.split s)
  /\ wrap_text_default text = wrap_text text 40
  /\ (forall w logo inv,
        In (CustomerTable (nama inv) (wrap_text (Some (alamat inv)) 50)
              (phone inv))
          (build_content w logo inv)).
Proof.
  intros Hmax.
  assert (Hdash : Forall (fun line =>
            Str.len line <= max_chars
            \/ (max_chars < Str.len line
                /\ exists s, text = Some s /\ In line (Str.split s)))
            (lines_of "-")).
  { constructor; [|constructor]. left. unfold Str.len. simpl. lia. }
  split; [|split; [|split; [reflexivity|]]].
  - destruct text as [s|]; [|exact Hdash]. unfold wrap_text.
    destruct (Str.truthy s) eqn:T; [|exact Hdash]. cbn [negb].
    destruct (Z.leb_spec (Str.len s) max_chars) as [Hle | Hgt].
    + eapply List.Forall_impl; [|apply (split_on_go_len LF "" s)].
      intros l Hl. left. unfold Str.len in *. simpl in Hl. lia.
    + destruct (wrap_loop max_chars (Str.split s) [] "") as [L c'] eqn:W.
      destruct (wrap_loop_lines max_chars (Str.split s) (Str.split s)
                  [] "" L c' (fun _ H => H) (split_words_ok s)
                  (List.Forall_nil _) (or_introl eq_refl) W) as [HL Hc'].
      remember (if Str.truthy c' then (L ++ [c'])%list else L) as L'
        eqn:EL.
      assert (HL' : Forall (fun l => no_lf l
                      /\ (Str.len l <= max_chars \/ In l (Str.split s))) L').
      { subst L'. destruct c' as [|c c']; [exact HL|]. simpl.
        apply Forall_app. split; [exact HL|]. constructor; [|constructor].
        destruct Hc' as [Hc' | Hc']; [discriminate | exact Hc']. }
      clear EL. destruct L' as [|l0 rest].
      * constructor; [|constructor]. left. unfold Str.len. simpl. lia.
      * rewrite lines_of_join;
          [|discriminate
           |eapply List.Forall_impl; [|exact HL']; now intros l [Hl _]].
        eapply List.Forall_impl; [|exact HL']. intros l [_ [Hl | Hl]].
        -- now left.
        -- destruct (Z.le_gt_cases (Str.len l) max_chars); [now left|].
           right. split; [lia|]. now exists s.
  - intros s -> Hne. unfold wrap_text.
    apply truthy_true in Hne. rewrite Hne. cbn [negb].
    destruct (Str.len s <=? max_chars); [reflexivity|].
    destruct (wrap_loop max_chars (Str.split s) [] "") as [L c'] eqn:W.
    rewrite split_join_lf.
    pose proof (wrap_loop_words max_chars (Str.split s) [] "" L c'
                  (split_words_ok s) W) as Hw.
    simpl in Hw. rewrite <- Hw.
    destruct c' as [|c c']; simpl.
    + now rewrite List.app_nil_r.
    + rewrite map_app, concat_app. simpl. now rewrite List.app_nil_r.
  - intros w logo inv. unfold build_content.
    apply in_or_app. left. simpl. tauto.
Qed.

Lemma wrap_text_lines_witness :
  Forall (fun line => Str.len line <= 5
                      \/ (5 < Str.len line
                          /\ exists s, Some "aaa bb cccccccccc d" = Some s
                                       /\ In line (Str.split s)))
    (lines_of (wrap_text (Some "aaa bb cccccccccc d") 5)).
Proof.
  apply (wrap_text_lines (Some "aaa bb cccccccccc d") 5). lia.
Defined.

(** C9, as stated, fails on the default width: a text of 44 characters is
    wrapped by [wrap_text] with its default, which a width of 50 would
    leave alone. *)
Lemma wrap_text_default_is_not_50 :
  ~ (forall text, wrap_text_default text = wrap_text text 50).
Proof.
  intros H.
  specialize (H (Some "Jl. Contoh No. 123, Jakarta, Indonesia 12345")).
  vm_compute in H. discriminate.
Qed.

(** ** File names *)

Lemma replace_illegal_all s :
  Str.all (fun c => negb (illegal_char c)) (replace_chars illegal_char s)
  = true.
Proof.
  induction s as [|c s IH]; simpl; [reflexivity|]. rewrite IH, andb_true_r.
  destruct (illegal_char c) eqn:E; [reflexivity | now rewrite E].
Qed.

Lemma replace_space_all s :
  Str.all (fun c => negb (illegal_char c)) s = true ->
  Str.all plain_char (replace_chars (Ascii.eqb " ") s) = true.
Proof.
  induction s as [|c s IH]; [reflexivity|]. cbn [replace_chars Str.all].
  intros H. apply andb_true_iff in H as [Hc Hs]. rewrite IH by exact Hs.
  rewrite andb_true_r. destruct (Ascii.eqb " " c) eqn:E; [reflexivity|].
  unfold plain_char. rewrite Hc, Ascii.eqb_sym, E. reflexivity.
Qed.

Lemma squeeze_all p s :
  Str.all p s = true -> Str.all p (squeeze_underscores s) = true.
Proof.
  induction s as [|c s IH]; simpl; [reflexivity|].
  intros H. apply andb_true_iff in H as [Hc Hs].
  destruct (_ && _); simpl; [auto|]. now rewrite Hc, IH.
Qed.

Lemma lstrip_underscores_all p s :
  Str.all p s = true -> Str.all p (lstrip_underscores s) = true.
Proof.
  induction s as [|c s IH]; simpl; [reflexivity|].
  intros H. destruct (Ascii.eqb c "_"); [|exact H].
  apply andb_true_iff in H as [_ Hs]. auto.
Qed.

Lemma rstrip_underscores_all p s :
  Str.all p s = true -> Str.all p (rstrip_underscores s) = true.
Proof.
  induction s as [|c s IH]; simpl; [reflexivity|].
  intros H. apply andb_true_iff in H as [Hc Hs].
  destruct (_ && _); simpl; [reflexivity|]. now rewrite Hc, IH.
Qed.

Lemma startswith_underscore c r :
  Str.startswith "_" (String c r) = Ascii.eqb c "_".
Proof.
  change (Str.startswith "_" (String c r)) with (Ascii.eqb "_" c && true).
  rewrite andb_true_r. apply Ascii.eqb_sym.
Qed.

Lemma contains_double c r :
  Str.contains "__" (String c r)
  = (Ascii.eqb c "_" && Str.startswith "_" r) || Str.contains "__" r.
Proof.
  change (Str.contains "__" (String c r))
    with ((Ascii.eqb "_" c && Str.startswith "_" r) || Str.contains "__" r).
  now rewrite (Ascii.eqb_sym "_" c).
Qed.

Lemma squeeze_head s :
  Str.startswith "_" (squeeze_underscores s) = Str.startswith "_" s.
Proof.
  induction s as [|c s IH]; [reflexivity|].
  cbn [squeeze_underscores].
  destruct (Ascii.eqb c "_" && Str.startswith "_" s) eqn:E.
  - apply andb_true_iff in E as [Ec Es].
    now rewrite IH, Es, startswith_underscore, Ec.
  - now rewrite !startswith_underscore.
Qed.

Lemma squeeze_no_double s :
  Str.contains "__" (squeeze_underscores s) = false.
Proof.
  induction s as [|c s IH]; [reflexivity|].
  cbn [squeeze_underscores].
  destruct (Ascii.eqb c "_" && Str.startswith "_" s) eqn:E; [exact IH|].
  now rewrite contains_double, squeeze_head, E, IH.
Qed.

Lemma lstrip_underscores_no_double s :
  Str.contains "__" s = false ->
  Str.contains "__" (lstrip_underscores s) = false.
Proof.
  induction s as [|c s IH]; [reflexivity|]. cbn [lstrip_underscores].
  intros H. destruct (Ascii.eqb c "_"); [|exact H].
  rewrite contains_double in H. apply orb_false_iff in H as [_ H]. auto.
Qed.

Lemma rstrip_underscores_head s :
  Str.startswith "_" (rstrip_underscores s) = true ->
  Str.startswith "_" s = true.
Proof.
  destruct s as [|c s]; [discriminate|]. cbn [rstrip_underscores].
  destruct (_ && _); [discriminate|]. now rewrite !startswith_underscore.
Qed.

Lemma rstrip_underscores_no_double s :
  Str.contains "__" s = false ->
  Str.contains "__" (rstrip_underscores s) = false.
Proof.
  induction s as [|c s IH]; [reflexivity|]. cbn [rstrip_underscores].
  rewrite contains_double. intros H. apply orb_false_iff in H as [Hh Ht].
  destruct (Ascii.eqb c "_" && negb _); [reflexivity|].
  rewrite contains_double, IH by exact Ht. rewrite orb_false_r.
  destruct (Ascii.eqb c "_"); [|reflexivity]. cbn [andb] in Hh |- *.
  destruct (Str.startswith "_" (rstrip_underscores s)) eqn:E; [|reflexivity].
  apply rstrip_underscores_head in E. congruence.
Qed.

Lemma lstrip_underscores_head s :
  Str.startswith "_" (lstrip_underscores s) = false.
Proof.
  induction s as [|c s IH]; [reflexivity|]. cbn [lstrip_underscores].
  destruct (Ascii.eqb c "_") eqn:E; [exact IH|].
  now rewrite startswith_underscore.
Qed.

Lemma rstrip_underscores_last s :
  endswith_char "_" (rstrip_underscores s) = false.
Proof.
  induction s as [|c s IH]; [reflexivity|]. cbn [rstrip_underscores].
  destruct (rstrip_underscores s) as [|d t] eqn:R; simpl.
  - destruct (Ascii.eqb c "_") eqn:E; simpl; [reflexivity | exact E].
  - rewrite andb_false_r. exact IH.
Qed.

Lemma sanitize_output_clean name : clean_name (sanitize_filename name).
Proof.
  unfold sanitize_filename, clean_name.
  set (t := squeeze_underscores _).
  assert (Hall : Str.all plain_char t = true)
    by (apply squeeze_all, replace_space_all, replace_illegal_all).
  assert (Hnd : Str.contains "__" t = false) by apply squeeze_no_double.
  split; [|split; [|split]].
  - now apply rstrip_underscores_all, lstrip_underscores_all.
  - now apply rstrip_underscores_no_double, lstrip_underscores_no_double.
  - destruct (Str.startswith "_" (rstrip_underscores (lstrip_underscores t)))
      eqn:E; [|reflexivity].
    apply rstrip_underscores_head in E.
    now rewrite lstrip_underscores_head in E.
  - apply rstrip_underscores_last.
Qed.

Lemma endswith_char_spec c s :
  endswith_char c s = true <-> exists r, s = r +:+ String c "".
Proof.
  induction s as [|a s IH].
  - split; [discriminate | intros ([|x r] & H); discriminate].
  - destruct s as [|b s].
    + cbn [endswith_char]. rewrite Ascii.eqb_eq. split.
      * intros ->. now exists "".
      * intros ([|x [|y r]] & H); try discriminate. now injection H.
    + change (endswith_char c (String a (String b s)))
        with (endswith_char c (String b s)).
      rewrite IH. split.
      * intros (r & ->). now exists (String a r).
      * intros ([|x r] & H); [discriminate|]. injection H as _ H.
        now exists r.
Qed.

(** What [sanitize_filename] delivers holds none of the characters it
    replaces and no space, has no two underscores in a row, and neither
    starts nor ends with an underscore. *)
Theorem sanitize_filename_clean (name : string) :
  Str.all plain_char (sanitize_filename name) = true
  /\ ~ occurs_in "__" (sanitize_filename name)
  /\ (forall r, sanitize_filename name <> "_" +:+ r)
  /\ (forall r, sanitize_filename name <> r +:+ "_").
Proof.
  destruct (sanitize_output_clean name) as (Hall & Hnd & Hhead & Hlast).
  split; [exact Hall|]. split; [|split].
  - intros O. apply contains_spec in O. congruence.
  - intros r E.
    assert (H : Str.startswith "_" (sanitize_filename name) = true)
      by (apply startswith_spec; now exists r).
    congruence.
  - intros r E.
    assert (H : endswith_char "_" (sanitize_filename name) = true)
      by (apply endswith_char_spec; now exists r).
    congruence.
Qed.

Lemma replace_chars_id p s :
  Str.all (fun c => negb (p c)) s = true -> replace_chars p s = s.
Proof.
  induction s as [|c s IH]; simpl; [reflexivity|].
  intros H. apply andb_true_iff in H as [Hc Hs]. rewrite IH by exact Hs.
  apply negb_true_iff in Hc. now rewrite Hc.
Qed.

Lemma squeeze_id s :
  Str.contains "__" s = false -> squeeze_underscores s = s.
Proof.
  induction s as [|c s IH]; [reflexivity|]. cbn [squeeze_underscores].
  rewrite contains_double. intros H. apply orb_false_iff in H as [Hh Ht].
  now rewrite Hh, IH.
Qed.

Lemma lstrip_underscores_id s :
  Str.startswith "_" s = false -> lstrip_underscores s = s.
Proof.
  destruct s as [|c s]; [reflexivity|]. rewrite startswith_underscore.
  cbn [lstrip_underscores]. now intros ->.
Qed.

Lemma rstrip_underscores_id s :
  endswith_char "_" s = false -> rstrip_underscores s = s.
Proof.
  induction s as [|c s IH]; [reflexivity|]. cbn [rstrip_underscores].
  destruct s as [|d s].
  - simpl. now intros ->.
  - intros H. rewrite IH by exact H. simpl. now rewrite andb_false_r.
Qed.

Lemma all_weaken (p q : ascii -> bool) s :
  (forall c, p c = true -> q c = true) ->
  Str.all p s = true -> Str.all q s = true.
Proof.
  intros Hpq. induction s as [|c s IH]; simpl; [reflexivity|].
  intros H. apply andb_true_iff in H as [Hc Hs].
  now rewrite (Hpq _ Hc), IH.
Qed.

Lemma sanitize_keeps name : clean_name name -> sanitize_filename name = name.
Proof.
  intros (Hall & Hnd & Hhead & Hlast). unfold sanitize_filename.
  rewrite (replace_chars_id illegal_char).
  - rewrite (replace_chars_id (Ascii.eqb " ")).
    + rewrite squeeze_id by exact Hnd.
      rewrite lstrip_underscores_id by exact Hhead.
      now apply rstrip_underscores_id.
    + eapply all_weaken; [|exact Hall]. intros c Hc. unfold plain_char in Hc.
      apply andb_true_iff in Hc as [_ Hc]. now rewrite Ascii.eqb_sym.
  - eapply all_weaken; [|exact Hall]. intros c Hc. unfold plain_char in Hc.
    now apply andb_true_iff in Hc as [Hc _].
Qed.

(** A name part that is already clean (plain characters only, no two
    underscores in a row, none at either end) passes through
    [sanitize_filename] unchanged. *)
Theorem sanitize_filename_keeps_clean (name : string) :
  Str.all plain_char name = true ->
  ~ occurs_in "__" name ->
  (forall r, name <> "_" +:+ r) ->
  (forall r, name <> r +:+ "_") ->
  sanitize_filename name = name.
Proof.
  intros Hall Hnd Hhead Hlast. apply sanitize_keeps.
  split; [exact Hall|]. split; [|split].
  - destruct (Str.contains "__" name) eqn:E; [|reflexivity].
    exfalso. apply Hnd. now apply contains_spec.
  - destruct (Str.startswith "_" name) eqn:E; [|reflexivity].
    apply startswith_spec in E as (r & E). now apply Hhead in E.
  - destruct (endswith_char "_" name) eqn:E; [|reflexivity].
    apply endswith_char_spec in E as (r & E). now apply Hlast in E.
Qed.

Lemma sanitize_filename_keeps_clean_witness :
  sanitize_filename "OR_DER_1" = "OR_DER_1".
Proof.
  apply sanitize_filename_keeps_clean.
  - reflexivity.
  - intros O. apply contains_spec in O. discriminate.
  - intros r E. discriminate.
  - intros r E.
    assert (H : endswith_char "_" "OR_DER_1" = true)
      by (apply endswith_char_spec; now exists r).
    discriminate.
Defined.

(** Sanitizing twice is sanitizing once. *)
Theorem sanitize_filename_idempotent (name : string) :
  sanitize_filename (sanitize_filename name) = sanitize_filename name.
Proof.
  apply sanitize_keeps, sanitize_output_clean.
Qed.

(** ** More on field lookup *)

(** Looking up a list of candidates followed by a second list is looking
    up the first list with, as default, the lookup of the second. *)
Theorem get_column_value_app
    (row : gmap string cell) (names more : list string) (default : string) :
  get_column_value row (names ++ more) default
  = get_column_value row names (get_column_value row more default).
Proof.
  induction names as [|name names IH]; [reflexivity|]. simpl.
  destruct (row !! name) as [[|text]|]; try exact IH.
  destruct (Str.truthy (Str.strip text)); [reflexivity | exact IH].
Qed.

Lemma offers_trimmed row name v : offers row name v -> trimmed_text v.
Proof.
  intros (text & _ & (l & r & _ & _ & _ & Hs & He) & Hne).
  now repeat split.
Qed.

Lemma lookup_trimmed row names default :
  trimmed_text default ->
  trimmed_text (get_column_value row names default).
Proof.
  intros Hd.
  destruct (get_column_value_cases row names default)
    as [[_ ->] | (pre & name & post & _ & _ & Ho)]; [exact Hd|].
  eapply offers_trimmed. exact Ho.
Qed.

(** With a default that is not empty and has no white space at either
    end, so is the value that [get_column_value] returns, whatever the row
    holds: it is never blank. *)
Theorem get_column_value_trimmed
    (row : gmap string cell) (names : list string) (default : string) :
  default <> "" -> starts_clean default -> ends_clean default ->
  get_column_value row names default <> ""
  /\ starts_clean (get_column_value row names default)
  /\ ends_clean (get_column_value row names default)
  /\ ~ blank_text (get_column_value row names default).
Proof.
  intros H1 H2 H3.
  destruct (lookup_trimmed row names default (conj H1 (conj H2 H3)))
    as (Hne & Hs & He).
  repeat split; auto. intros Hb.
  destruct (get_column_value row names default) as [|c v]; [congruence|].
  unfold blank_text in Hb. cbn [Str.all] in Hb. cbn [starts_clean] in Hs.
  rewrite Hs in Hb. discriminate.
Qed.

Lemma dash_trimmed : trimmed_text "-".
Proof.
  split; [discriminate|]. split; [reflexivity|].
  intros u c H. destruct u as [|a [|b u]]; try discriminate.
  injection H as <-. reflexivity.
Qed.

Lemma get_column_value_trimmed_witness :
  get_column_value row_dp NAMA_NAMES "-" <> "".
Proof.
  destruct dash_trimmed as (H1 & H2 & H3).
  apply (get_column_value_trimmed row_dp NAMA_NAMES "-" H1 H2 H3).
Defined.

Lemma build_invoice_texts w row inv :
  build_invoice w row = Ok inv ->
  nama inv = get_column_value row NAMA_NAMES "-"
  /\ alamat inv = get_column_value row ALAMAT_NAMES "-"
  /\ ukuran inv = get_column_value row UKURAN_NAMES "-"
  /\ phone inv = get_column_value row PHONE_NAMES "-"
  /\ timestamp inv = get_column_value row TIMESTAMP_NAMES (now w).
Proof.
  unfold build_invoice.
  destruct (resolve_qty row) as [q | e]; [|discriminate]. cbn [bind].
  destruct (payment _ _ _) as [pd | e]; [|discriminate]. cbn [bind].
  intros [= <-]. repeat split.
Qed.

(** No text field of a built invoice is blank: the order id, the name,
    the address, the size, the payment method, the payment status and the
    phone are each a trimmed cell text or the dash. *)
Theorem invoice_fields_trimmed
    (w : env) (row : gmap string cell) (inv : invoice) :
  build_invoice w row = Ok inv ->
  Forall trimmed_text
    [order_id inv; nama inv; alamat inv; ukuran inv; metode_bayar inv;
     status_bayar inv; phone inv].
Proof.
  intros H.
  destruct (build_invoice_texts _ _ _ H) as (-> & -> & -> & -> & _).
  apply build_invoice_inv in H as (_ & _ & -> & -> & -> & _).
  do 7 (constructor; [apply lookup_trimmed, dash_trimmed|]).
  constructor.
Qed.

Lemma invoice_fields_trimmed_witness :
  exists inv, build_invoice demo_env row_dp = Ok inv
              /\ trimmed_text (order_id inv).
Proof.
  eexists. split; [vm_compute; reflexivity|].
  pose proof (invoice_fields_trimmed demo_env row_dp _
                ltac:(vm_compute; reflexivity)) as H.
  apply Forall_cons_iff in H as [H _]. exact H.
Defined.

(** The default of [get_column_value] matters only when no candidate is
    usable: as soon as one is, any two defaults give the same value. *)
Theorem default_only_when_unusable
    (row : gmap string cell) (names : list string) (d1 d2 : string) :
  ~ Forall (unusable row) names ->
  get_column_value row names d1 = get_column_value row names d2.
Proof.
  induction names as [|name names IH]; intros H.
  - exfalso. apply H. constructor.
  - cbn [get_column_value].
    destruct (row !! name) as [[|text]|] eqn:L.
    + apply IH. intros Hall. apply H. constructor; [|exact Hall].
      right. left. exact L.
    + destruct (Str.truthy (Str.strip text)) eqn:T; [reflexivity|].
      apply IH. intros Hall. apply H. constructor; [|exact Hall].
      right. right. exists text. split; [exact L|].
      apply strip_blank. now apply truthy_false.
    + apply IH. intros Hall. apply H. constructor; [|exact Hall].
      left. exact L.
Qed.

Lemma default_only_when_unusable_witness :
  get_column_value row_dp NAMA_NAMES "-"
  = get_column_value row_dp NAMA_NAMES "Unknown".
Proof.
  apply default_only_when_unusable. intros H.
  apply Forall_cons_iff in H as [[H | [H | (text & H & Hb)]] _];
    vm_compute in H; try discriminate.
  injection H as <-. vm_compute in Hb. discriminate.
Defined.

(** ** When a row fails *)

(** Reading the quantity raises only on a text that [float] reads as an
    infinity, and then with the [OverflowError] of [int]. *)
Theorem resolve_qty_raises_iff (row : gmap string cell) (e : exn) :
  resolve_qty row = Raise e
  <-> (exists b, F64.of_string (get_column_value row QTY_NAMES "1")
                 = Some (F64.Inf b))
      /\ e = overflow_error.
Proof.
  unfold resolve_qty, parse_qty, float_of_text.
  destruct (F64.of_string _) as [[k | b |] |]; cbn.
  - split; [discriminate | intros [[b H] _]; discriminate].
  - split.
    + intros [= <-]. split; [now exists b | reflexivity].
    + intros [_ ->]. reflexivity.
  - split; [discriminate | intros [[b H] _]; discriminate].
  - split; [discriminate | intros [[b H] _]; discriminate].
Qed.



(** ** The batch run *)

Lemma main_step_cases w out logo st index row :
  (exists doc,
     main_step w out logo st index row
     = Batch (success_count st + 1) (error_count st) (written st ++ [doc])
     /\ create_invoice_pdf w row index
          (path_join out
             (invoice_filename
                (get_column_value row ORDER_ID_NAMES
                   ("ORDER" +:+ Str.of_Z (index + 1)))
                (get_column_value row NAMA_NAMES "Unknown")))
          logo = Ok doc)
  \/ (main_step w out logo st index row
      = Batch (success_count st) (error_count st + 1) (written st)
      /\ exists e, create_invoice_pdf w row index
          (path_join out
             (invoice_filename
                (get_column_value row ORDER_ID_NAMES
                   ("ORDER" +:+ Str.of_Z (index + 1)))
                (get_column_value row NAMA_NAMES "Unknown")))
          logo = Raise e).
Proof.
  unfold main_step, call_create_invoice_pdf. cbn [check_keywords bind].
  destruct (create_invoice_pdf _ _ _ _ _) as [doc | e].
  - left. now exists doc.
  - right. split; [reflexivity | now exists e].
Qed.

Lemma main_loop_counts w out logo rows : forall st index,
  let st' := main_loop w out logo st index rows in
  success_count st' + error_count st'
  = success_count st + error_count st + Z.of_nat (length rows)
  /\ Z.of_nat (length (written st')) - success_count st'
     = Z.of_nat (length (written st)) - success_count st.
Proof.
  induction rows as [|row rows IH]; intros st index; cbn zeta.
  - cbn [main_loop length]. lia.
  - cbn [main_loop]. specialize (IH (main_step w out logo st index row)
                                   (index + 1)). cbn zeta in IH.
    destruct IH as [IH1 IH2]. rewrite IH1, IH2.
    destruct (main_step_cases w out logo st index row)
      as [(doc & -> & _) | (-> & _)];
      cbn [success_count error_count written];
      rewrite ?length_app; cbn [length]; lia.
Qed.

(** Every row of a batch run is counted once, as a success or as a
    failure, and one document is written for each success: a row that fails
    does not stop the run. *)
Theorem main_run_counts
    (w : env) (out : string) (logo : option string)
    (rows : list (gmap string cell)) :
  success_count (main_run w out logo rows)
  + error_count (main_run w out logo rows)
  = Z.of_nat (length rows)
  /\ Z.of_nat (length (written (main_run w out logo rows)))
     = success_count (main_run w out logo rows)
  /\ 0 <= error_count (main_run w out logo rows).
Proof.
  pose proof (main_loop_counts w out logo rows (Batch 0 0 []) 0) as [H1 H2].
  cbn [success_count error_count written length] in H1, H2.
  fold (main_run w out logo rows) in H1, H2.
  split; [lia|]. split; [lia|].
  assert (Z.of_nat (length (written (main_run w out logo rows)))
          <= Z.of_nat (length rows)); [|lia].
  clear H1 H2. unfold main_run.
  assert (G : forall st index,
             (length (written (main_loop w out logo st index rows))
              <= length (written st) + length rows)%nat).
  { induction rows as [|row rows IH]; intros st index; cbn [main_loop length].
    - lia.
    - specialize (IH (main_step w out logo st index row) (index + 1)).
      destruct (main_step_cases w out logo st index row)
        as [(doc & E & _) | (E & _)]; rewrite E in IH |- *;
        cbn [written] in IH; rewrite ?length_app in IH; cbn [length] in IH;
        lia. }
  specialize (G (Batch 0 0 []) 0). cbn [written length] in G. lia.
Qed.







(** ** Where the files go *)






(** ** Payment summary and bank block *)

(** The line of the amount due stands in the payment summary exactly when
    the record is a down payment or something is due; so the bank block
    never comes without it, and without a down payment the two come
    together. *)
Theorem due_line_and_bank_block
    (w : env) (logo : option string) (inv : invoice) :
  In (SummaryTable (summary_data inv)) (build_content w logo inv)
  /\ (In ("SISA TAGIHAN:", sisa_tagihan inv) (summary_data inv)
      <-> is_dp inv = true \/ num_gt (sisa_tagihan inv) 0 = true)
  /\ (existsb is_bank_table (build_content w logo inv) = true ->
      In ("SISA TAGIHAN:", sisa_tagihan inv) (summary_data inv)).
Proof.
  assert (Hline : In ("SISA TAGIHAN:", sisa_tagihan inv) (summary_data inv)
                  <-> is_dp inv = true \/ num_gt (sisa_tagihan inv) 0 = true).
  { unfold summary_data.
    destruct (is_dp inv), (num_gt (sisa_tagihan inv) 0); cbn [app In].
    - split; [auto | intros _; right; right; left; reflexivity].
    - split; [auto | intros _; right; right; left; reflexivity].
    - split; [auto | intros _; right; right; left; reflexivity].
    - split; [|intros [H | H]; discriminate].
      intros [H | [H | []]]; discriminate. }
  split; [|split; [exact Hline|]].
  - unfold build_content. apply in_or_app. left. cbn [In]. tauto.
  - rewrite bank_table_present. intros H. apply Hline. now right.
Qed.

Lemma of_Z_positive z k : 0 < z -> F64.of_Z z = Ok (F64.Fin k) -> 0 < k.
Proof.
  intros Hz. pose proof F64Facts.one_pos as H1.
  unfold F64.of_Z, F64.round.
  destruct (Z.ltb_spec (z * F64.one) 0) as [Hlt | _]; [nia|].
  unfold F64.round_pos. rewrite Z.div_1_r, Z.mul_1_l.
  set (n := z * F64.one). set (s := Z.max 0 (Z.log2 n - 52)).
  assert (Hn : 0 < n) by (unfold n; nia).
  assert (H2s : 0 < 2 ^ s) by (apply Z.pow_pos_nonneg; lia).
  assert (Hle : 2 ^ s <= n).
  { apply Z.le_trans with (2 ^ Z.log2 n); [|now apply Z.log2_spec].
    pose proof (Z.log2_nonneg n). apply Z.pow_le_mono_r; lia. }
  pose proof (F64Facts.rne_bounds n (2 ^ s) H2s) as [Hb _].
  assert (1 <= n / 2 ^ s) by (apply Z.div_le_lower_bound; lia).
  destruct (_ <? F64.huge); [|discriminate].
  intros [= <-]. nia.
Qed.

(** A down payment on at least one item leaves something due, whatever the
    payment status says: paid and due are the same amount, greater than 0,
    the line of the amount due is in the summary and the bank block is in
    the document. *)
Theorem down_payment_leaves_half_due
    (w : env) (row : gmap string cell) (inv : invoice) :
  build_invoice w row = Ok inv ->
  is_dp inv = true ->
  1 <= qty inv ->
  jumlah_dibayar inv = sisa_tagihan inv
  /\ num_gt (sisa_tagihan inv) 0 = true
  /\ In ("SISA TAGIHAN:", sisa_tagihan inv) (summary_data inv)
  /\ (forall logo,
        existsb is_bank_table (build_content w logo inv) = true).
Proof.
  intros H D Hq.
  apply build_invoice_inv in H as (_ & Ht & _ & _ & _ & _ & P).
  rewrite D in P. apply payment_dp in P as (h & E & Hp & Hd & _).
  assert (Hh : 0 < h).
  { apply of_Z_positive in E; [lia|]. rewrite Ht. unfold HARGA_SATUAN. lia. }
  assert (Hgt : num_gt (sisa_tagihan inv) 0 = true).
  { rewrite Hd. cbn [num_gt F64.gt_Z]. rewrite Z.mul_0_l.
    now apply Z.ltb_lt. }
  split; [congruence|]. split; [exact Hgt|]. split.
  - unfold summary_data. rewrite D. cbn [app In]. right. right. now left.
  - intros logo. now rewrite bank_table_present.
Qed.

Lemma down_payment_leaves_half_due_witness :
  exists inv, build_invoice demo_env row_dp = Ok inv
              /\ num_gt (sisa_tagihan inv) 0 = true.
Proof.
  eexists. split; [vm_compute; reflexivity|].
  edestruct (down_payment_leaves_half_due demo_env row_dp)
    as (_ & Hgt & _);
    [vm_compute; reflexivity | vm_compute; reflexivity
     | vm_compute; discriminate |].
  exact Hgt.
Defined.

(** ** More on wrapping *)

Lemma wrap_text_unfold s max_chars :
  s <> "" ->
  wrap_text (Some s) max_chars
  = if Str.len s <=? max_chars then s else wrapped max_chars (Str.split s).
Proof.
  intros Hne. unfold wrap_text, wrapped. apply truthy_true in Hne.
  rewrite Hne. cbn [negb]. destruct (_ <=? _); [reflexivity|].
  destruct (wrap_loop _ _ _ _). reflexivity.
Qed.

Lemma wrapped_words max_chars ws :
  Forall word_ok ws -> Str.split (wrapped max_chars ws) = ws.
Proof.
  intros Hws. unfold wrapped.
  destruct (wrap_loop max_chars ws [] "") as [L c'] eqn:W.
  rewrite split_join_lf.
  pose proof (wrap_loop_words max_chars ws [] "" L c' Hws W) as Hw.
  cbn [map concat app] in Hw.
  change (Str.split "") with (@nil string) in Hw. cbn [app] in Hw.
  rewrite <- Hw. destruct c' as [|c c']; cbn [Str.truthy].
  - change (Str.split "") with (@nil string). now rewrite List.app_nil_r.
  - rewrite map_app, concat_app. cbn [map concat].
    now rewrite List.app_nil_r.
Qed.

Lemma wrap_text_words s max_chars :
  s <> "" -> Str.split (wrap_text (Some s) max_chars) = Str.split s.
Proof.
  intros Hne. rewrite wrap_text_unfold by exact Hne.
  destruct (_ <=? _); [reflexivity|].
  apply wrapped_words, split_words_ok.
Qed.

Lemma split_go_nonempty cur s :
  cur <> "" -> Str.split_go cur s <> [].
Proof.
  revert cur. induction s as [|c s IH]; intros cur Hne; cbn [Str.split_go].
  - apply truthy_true in Hne. rewrite Hne. discriminate.
  - destruct (Str.isspace c).
    + apply truthy_true in Hne. rewrite Hne. discriminate.
    + apply IH. destruct cur; discriminate.
Qed.

Lemma trimmed_has_word v : trimmed_text v -> Str.split v <> [].
Proof.
  intros (Hne & Hs & _). destruct v as [|c v]; [congruence|].
  cbn [starts_clean] in Hs. unfold Str.split. cbn [Str.split_go].
  rewrite Hs. apply split_go_nonempty. discriminate.
Qed.

(** Wrapping a text that holds a word, and wrapping the result again at
    the same width, changes nothing more. *)
Theorem wrap_text_idempotent (s : string) (max_chars : Z) :
  Str.split s <> [] ->
  wrap_text (Some (wrap_text (Some s) max_chars)) max_chars
  = wrap_text (Some s) max_chars.
Proof.
  intros Hw.
  assert (Hs : s <> "") by (intros ->; now apply Hw).
  assert (Ho : wrap_text (Some s) max_chars <> "").
  { intros E. apply Hw. rewrite <- (wrap_text_words s max_chars Hs), E.
    reflexivity. }
  rewrite (wrap_text_unfold _ _ Ho).
  destruct (Str.len (wrap_text (Some s) max_chars) <=? max_chars) eqn:E1;
    [reflexivity|].
  rewrite (wrap_text_words s max_chars Hs).
  rewrite (wrap_text_unfold _ _ Hs) in E1 |- *.
  destruct (Str.len s <=? max_chars) eqn:E2; [congruence | reflexivity].
Qed.

Lemma wrap_text_idempotent_witness :
  wrap_text (Some (wrap_text (Some "aaa bb cccccccccc d") 5)) 5
  = wrap_text (Some "aaa bb cccccccccc d") 5.
Proof.
  apply wrap_text_idempotent. vm_compute. discriminate.
Defined.

(** The address cell of an invoice is never empty, and its words are
    those of the address as read from the row, in order. *)
Theorem address_cell_keeps_words
    (w : env) (row : gmap string cell) (inv : invoice) :
  build_invoice w row = Ok inv ->
  wrap_text (Some (alamat inv)) 50 <> ""
  /\ Str.split (wrap_text (Some (alamat inv)) 50)
     = Str.split (get_column_value row ALAMAT_NAMES "-")
  /\ Str.split (wrap_text (Some (alamat inv)) 50) <> [].
Proof.
  intros H. destruct (build_invoice_texts _ _ _ H) as (_ & -> & _).
  pose proof (lookup_trimmed row ALAMAT_NAMES "-" dash_trimmed) as Ht.
  assert (Hne : get_column_value row ALAMAT_NAMES "-" <> "") by apply Ht.
  rewrite (wrap_text_words _ 50 Hne).
  pose proof (trimmed_has_word _ Ht) as Hw.
  split; [|split; [reflexivity | exact Hw]].
  intros E. apply Hw. rewrite <- (wrap_text_words _ 50 Hne), E. reflexivity.
Qed.

Lemma address_cell_keeps_words_witness :
  exists inv, build_invoice demo_env row_dp = Ok inv
              /\ wrap_text (Some (alamat inv)) 50 <> "".
Proof.
  eexists. split; [vm_compute; reflexivity|].
  apply (address_cell_keeps_words demo_env row_dp).
  vm_compute. reflexivity.
Defined.

(** ** Currency *)

Lemma uint_digits d :
  Str.all F64.is_digit (NilEmpty.string_of_uint d) = true.
Proof. induction d; simpl; auto. Qed.

Lemma of_Z_digits m : 0 <= m -> Str.all F64.is_digit (Str.of_Z m) = true.
Proof.
  intros Hm. unfold Str.of_Z. destruct m as [|p|p]; [reflexivity | | lia].
  cbn [Z.to_int NilZero.string_of_int]. unfold NilZero.string_of_uint.
  destruct (Pos.to_uint p) eqn:E; try (rewrite <- E; apply uint_digits).
  reflexivity.
Qed.

Lemma of_Z_negative n : n < 0 -> Str.of_Z n = "-" +:+ Str.of_Z (Z.abs n).
Proof.
  intros Hn. destruct n as [|p|p]; try lia. reflexivity.
Qed.

Lemma digit_is_no_mark c :
  F64.is_digit c = true -> Ascii.eqb c "," = false /\ Ascii.eqb c "." = false.
Proof.
  intros H. split.
  - destruct (Ascii.eqb c ",") eqn:E; [|reflexivity].
    apply Ascii.eqb_eq in E. subst c. discriminate.
  - destruct (Ascii.eqb c ".") eqn:E; [|reflexivity].
    apply Ascii.eqb_eq in E. subst c. discriminate.
Qed.

Lemma ungroup ds :
  Str.all F64.is_digit ds = true ->
  delete_char "." (replace_char "," "." (group3 ds)) = ds.
Proof.
  induction ds as [|c ds IH]; [reflexivity|]. cbn [Str.all group3].
  intros H. apply andb_true_iff in H as [Hc Hds].
  destruct (digit_is_no_mark c Hc) as [Hcomma Hdot].
  cbn [replace_char]. rewrite Hcomma. cbn [delete_char]. rewrite Hdot.
  f_equal. destruct (_ && _); [|now apply IH].
  cbn [replace_char delete_char].
  change (Ascii.eqb "," ",") with true. cbv iota.
  change (Ascii.eqb "." ".") with true. cbv iota. now apply IH.
Qed.

Lemma rne_units n : 0 <= n -> F64.rne (n * F64.one) F64.one = n.
Proof. intros _. apply F64Facts.rne_exact, F64Facts.one_pos. Qed.

Lemma format_int n :
  Z.abs n <= 2 ^ 53 ->
  format_currency (Int n)
  = Ok ("Rp " +:+ (if n <? 0 then "-" else "")
          +:+ replace_char "," "." (group3 (Str.of_Z (Z.abs n)))).
Proof.
  intros Hn. unfold format_currency, to_float.
  rewrite (F64Facts.of_Z_exact n Hn). cbn [bind format_f0].
  pose proof F64Facts.one_pos as H1.
  replace (Z.abs (n * F64.one)) with (Z.abs n * F64.one)
    by (rewrite Z.abs_mul, (Z.abs_eq F64.one); lia).
  rewrite rne_units by lia.
  replace (n * F64.one <? 0) with (n <? 0)
    by (destruct (Z.ltb_spec n 0), (Z.ltb_spec (n * F64.one) 0);
        try reflexivity; nia).
  destruct (n <? 0); reflexivity.
Qed.

Lemma replace_char_all a b t :
  Ascii.eqb b a = false ->
  Str.all (fun c => negb (Ascii.eqb c a)) (replace_char a b t) = true.
Proof.
  intros Hba. induction t as [|c t IH]; [reflexivity|].
  cbn [replace_char Str.all]. rewrite IH, andb_true_r.
  destruct (Ascii.eqb c a) eqn:E; [now rewrite Hba | now rewrite E].
Qed.

Lemma all_no_contains a t :
  Str.all (fun c => negb (Ascii.eqb c a)) t = true ->
  Str.contains (String a "") t = false.
Proof.
  induction t as [|c t IH]; [reflexivity|]. cbn [Str.all].
  intros H. apply andb_true_iff in H as [Hc Ht].
  change (Str.contains (String a "") (String c t))
    with ((Ascii.eqb a c && true) || Str.contains (String a "") t).
  rewrite IH by exact Ht. apply negb_true_iff in Hc.
  now rewrite Ascii.eqb_sym, Hc.
Qed.

(** For an amount of at most 53 bits, [format_currency] returns the text
    [Rp], a blank and the decimal digits of the amount, with a dot before
    every group of three digits and nothing else: taking the dots out gives
    the amount back as Python prints it. *)
Theorem format_currency_digits (n : Z) :
  Z.abs n <= 2 ^ 53 ->
  exists body,
    format_currency (Int n) = Ok ("Rp " +:+ body)
    /\ delete_char "." body = Str.of_Z n
    /\ Str.contains "," body = false.
Proof.
  intros Hn. rewrite (format_int n Hn).
  pose proof (of_Z_digits (Z.abs n) ltac:(lia)) as Hd.
  eexists. split; [reflexivity|].
  assert (Hc : forall t, Str.contains "," (replace_char "," "." t) = false)
    by (intros t; apply all_no_contains, replace_char_all; reflexivity).
  destruct (Z.ltb_spec n 0) as [Hneg | Hpos].
  - split.
    + change ("-" +:+ ?r) with (String "-" r). cbn [delete_char].
      change (Ascii.eqb "-" ".") with false. cbv iota.
      rewrite ungroup by exact Hd. now rewrite (of_Z_negative n Hneg).
    + change ("-" +:+ ?r) with (String "-" r).
      change (Str.contains "," (String "-" ?r))
        with (false || Str.contains "," r).
      now rewrite Hc.
  - change ("" +:+ ?r) with r. rewrite ungroup by exact Hd.
    rewrite Z.abs_eq by lia. split; [reflexivity|].
    apply Hc.
Qed.

Lemma format_currency_digits_witness :
  exists body,
    format_currency (Int 1500000) = Ok ("Rp " +:+ body)
    /\ delete_char "." body = Str.of_Z 1500000
    /\ Str.contains "," body = false.
Proof.
  apply format_currency_digits. vm_compute. discriminate.
Defined.

(** ** Reading back a printed quantity *)

Lemma horner_spec d : forall acc,
  horner d acc
  = Z.of_N (DecimalPos.Unsigned.of_lu (Decimal.rev d))
    + acc * 10 ^ Z.of_N (DecimalPos.Unsigned.usize d).
Proof.
  induction d; intros acc; cbn [horner DecimalPos.Unsigned.usize];
    [cbn; lia | ..];
    rewrite IHd; unfold Decimal.rev; cbn [Decimal.revapp];
    rewrite (DecimalPos.Unsigned.of_lu_revapp d (_ Decimal.Nil));
    rewrite N2Z.inj_add, N2Z.inj_mul, N2Z.inj_pow, N2Z.inj_succ;
    rewrite Z.pow_succ_r by lia;
    cbn [DecimalPos.Unsigned.of_lu]; unfold Decimal.rev;
    change (Z.of_N 10) with 10; cbn; lia.
Qed.

Lemma horner_to_uint p : horner (Pos.to_uint p) 0 = Zpos p.
Proof.
  rewrite horner_spec, <- DecimalPos.Unsigned.of_uint_alt.
  rewrite DecimalPos.Unsigned.of_to. cbn. lia.
Qed.

Lemma digits_uint d : forall acc count,
  F64.digits acc count (NilEmpty.string_of_uint d)
  = (horner d acc,
     count + Z.of_nat (String.length (NilEmpty.string_of_uint d)), "").
Proof.
  induction d; intros acc count;
    cbn [NilEmpty.string_of_uint F64.digits horner String.length];
    [apply f_equal2; [apply f_equal2; [reflexivity | lia] | reflexivity]
    | ..];
    change (F64.is_digit _) with true; cbv iota; rewrite IHd;
    match goal with
    | |- context [Str.code ?c - 48] =>
        let v := eval vm_compute in (Str.code c - 48) in
        change (Str.code c - 48) with v
    end;
    (apply f_equal2; [apply f_equal2; [f_equal; lia | lia] | reflexivity]).
Qed.

Lemma numeral_char_facts c :
  numeral_char c = true ->
  (Str.code c <? 128) = true /\ F64.c_isspace c = false
  /\ Str.isspace c = false /\ Ascii.eqb c "_" = false.
Proof.
  destruct c as [[] [] [] [] [] [] [] []]; try discriminate;
    intros _; repeat split.
Qed.

Lemma c_rstrip_id s :
  Str.all (fun c => negb (F64.c_isspace c)) s = true -> F64.c_rstrip s = s.
Proof.
  induction s as [|c s IH]; [reflexivity|]. cbn [Str.all F64.c_rstrip].
  intros H. apply andb_true_iff in H as [Hc Hs]. rewrite IH by exact Hs.
  apply negb_true_iff in Hc. now rewrite Hc.
Qed.

Lemma rstrip_id s :
  Str.all nonspace s = true -> Str.rstrip s = s.
Proof.
  induction s as [|c s IH]; [reflexivity|]. cbn [Str.all Str.rstrip].
  intros H. apply andb_true_iff in H as [Hc Hs]. rewrite IH by exact Hs.
  unfold nonspace in Hc. apply negb_true_iff in Hc. now rewrite Hc.
Qed.

Lemma drop_underscores_id s : forall prev,
  Str.all (fun c => negb (Ascii.eqb c "_")) s = true ->
  Ascii.eqb prev "_" = false ->
  F64.drop_underscores prev s = Some s.
Proof.
  induction s as [|c s IH]; intros prev Hs Hp;
    cbn [F64.drop_underscores Str.all] in *.
  - now rewrite Hp.
  - apply andb_true_iff in Hs as [Hc Hs]. apply negb_true_iff in Hc.
    rewrite Hc, Hp. cbn [andb]. now rewrite (IH c Hs Hc).
Qed.

(** A printed integer passes unchanged through the steps that [float]
    takes before reading the number. *)
Lemma numeral_prepared txt :
  txt <> "" -> Str.all numeral_char txt = true ->
  F64.drop_underscores "000"
    (F64.c_rstrip (F64.c_lstrip (F64.transform txt))) = Some txt
  /\ Str.strip txt = txt.
Proof.
  intros Hne Hall.
  assert (H128 : Str.all (fun c => Str.code c <? 128) txt = true)
    by (eapply all_weaken; [|exact Hall];
        intros c Hc; now apply numeral_char_facts in Hc).
  assert (Hsp : Str.all (fun c => negb (F64.c_isspace c)) txt = true)
    by (eapply all_weaken; [|exact Hall];
        intros c Hc; apply numeral_char_facts in Hc as (_ & -> & _);
        reflexivity).
  assert (Hus : Str.all nonspace txt = true)
    by (eapply all_weaken; [|exact Hall]; unfold nonspace;
        intros c Hc; apply numeral_char_facts in Hc as (_ & _ & -> & _);
        reflexivity).
  assert (Hun : Str.all (fun c => negb (Ascii.eqb c "_")) txt = true)
    by (eapply all_weaken; [|exact Hall];
        intros c Hc; apply numeral_char_facts in Hc as (_ & _ & _ & ->);
        reflexivity).
  unfold F64.transform. rewrite H128.
  destruct txt as [|c r]; [congruence|].
  cbn [Str.all] in Hsp, Hus. apply andb_true_iff in Hsp as [Hc Hr].
  apply andb_true_iff in Hus as [Hc' Hr'].
  apply negb_true_iff in Hc. unfold nonspace in Hc'.
  apply negb_true_iff in Hc'. split.
  - cbn [F64.c_lstrip]. rewrite Hc.
    rewrite c_rstrip_id
      by (cbn [Str.all]; rewrite Hc; exact Hr).
    now apply drop_underscores_id.
  - unfold Str.strip. cbn [Str.lstrip]. rewrite Hc'.
    apply rstrip_id. cbn [Str.all]. unfold nonspace at 1.
    rewrite Hc'. exact Hr'.
Qed.

Lemma decimal_uint d :
  NilEmpty.string_of_uint d <> "" ->
  F64.decimal (NilEmpty.string_of_uint d) = Some (horner d 0, 0).
Proof.
  intros Hne. unfold F64.decimal. rewrite digits_uint.
  cbn [F64.exponent].
  destruct (NilEmpty.string_of_uint d) as [|c r]; [congruence|].
  cbn [String.length].
  destruct (Z.ltb_spec 0 (0 + Z.of_nat (S (String.length r)) + 0));
    [reflexivity | lia].
Qed.

Lemma uint_nonempty d : d <> Decimal.Nil -> NilEmpty.string_of_uint d <> "".
Proof. destruct d; [congruence | discriminate..]. Qed.

Lemma sign_uint d :
  d <> Decimal.Nil ->
  F64.sign (NilEmpty.string_of_uint d) = (false, NilEmpty.string_of_uint d).
Proof. destruct d; [congruence | reflexivity..]. Qed.

Lemma of_string_positive p :
  Zpos p <= 2 ^ 53 ->
  F64.of_string (Str.of_Z (Zpos p)) = Some (F64.Fin (Zpos p * F64.one))
  /\ F64.of_string (Str.of_Z (Zneg p))
     = Some (F64.Fin (- (Zpos p * F64.one)))
  /\ Str.strip (Str.of_Z (Zpos p)) = Str.of_Z (Zpos p)
  /\ Str.strip (Str.of_Z (Zneg p)) = Str.of_Z (Zneg p).
Proof.
  intros Hp.
  pose proof (DecimalPos.Unsigned.to_uint_nonnil p) as Hnil.
  pose proof (uint_nonempty _ Hnil) as Hne.
  assert (Epos : Str.of_Z (Zpos p) = NilEmpty.string_of_uint (Pos.to_uint p)).
  { unfold Str.of_Z. cbn [Z.to_int NilZero.string_of_int].
    unfold NilZero.string_of_uint. now destruct (Pos.to_uint p). }
  assert (Eneg : Str.of_Z (Zneg p)
                 = String "-" (NilEmpty.string_of_uint (Pos.to_uint p))).
  { unfold Str.of_Z. cbn [Z.to_int NilZero.string_of_int].
    unfold NilZero.string_of_uint. now destruct (Pos.to_uint p). }
  assert (Hnum : Str.all numeral_char
                   (NilEmpty.string_of_uint (Pos.to_uint p)) = true).
  { eapply all_weaken; [|apply uint_digits]. unfold numeral_char.
    intros c ->. reflexivity. }
  assert (Hval : F64.round_pos (Zpos p * 10 ^ 0 * F64.one) 1
                 = F64.Fin (Zpos p * F64.one)).
  { change (10 ^ 0) with 1. rewrite Z.mul_1_r. unfold F64.one.
    replace (Zpos p * 2 ^ 1074) with (Zpos p * 2 ^ 1074 * 1) at 1 by ring.
    apply F64Facts.round_pos_exact; try lia.
    pose proof (F64Facts.small_below_huge (Zpos p)). lia. }
  rewrite Epos, Eneg.
  destruct (numeral_prepared _ Hne Hnum) as [Hprep Hstrip].
  assert (Hnum' : Str.all numeral_char
            (String "-" (NilEmpty.string_of_uint (Pos.to_uint p))) = true)
    by (cbn [Str.all]; now rewrite Hnum).
  assert (Hne' : String "-" (NilEmpty.string_of_uint (Pos.to_uint p)) <> "")
    by discriminate.
  destruct (numeral_prepared _ Hne' Hnum') as [Hprep' Hstrip'].
  split; [|split; [|split; assumption]].
  - unfold F64.of_string. rewrite Hprep.
    rewrite (sign_uint _ Hnil).
    rewrite (decimal_uint _ Hne), horner_to_uint.
    unfold F64.of_decimal. change (0 <=? 0) with true. cbv iota.
    now rewrite Hval.
  - unfold F64.of_string. rewrite Hprep'. cbn [F64.sign].
    rewrite (decimal_uint _ Hne), horner_to_uint.
    unfold F64.of_decimal. change (0 <=? 0) with true. cbv iota.
    now rewrite Hval.
Qed.

Lemma of_Z_nonempty n : Str.of_Z n <> "".
Proof.
  unfold Str.of_Z. destruct n as [|p|p]; [discriminate | | discriminate].
  cbn [Z.to_int NilZero.string_of_int]. unfold NilZero.string_of_uint.
  destruct (Pos.to_uint p); discriminate.
Qed.

Lemma parse_qty_printed n :
  Z.abs n <= 2 ^ 53 ->
  parse_qty (Str.of_Z n) = Ok n /\ Str.strip (Str.of_Z n) = Str.of_Z n.
Proof.
  intros Hn. pose proof F64Facts.one_pos as H1.
  destruct n as [|p|p].
  - split; vm_compute; reflexivity.
  - assert (Hp : Zpos p <= 2 ^ 53) by lia.
    destruct (of_string_positive p Hp) as (E & _ & S & _).
    split; [|exact S]. unfold parse_qty, float_of_text. rewrite E.
    cbn [bind F64.to_Z try_except]. rewrite Z.quot_mul by lia. reflexivity.
  - assert (Hp : Zpos p <= 2 ^ 53) by lia.
    destruct (of_string_positive p Hp) as (_ & E & _ & S).
    split; [|exact S]. unfold parse_qty, float_of_text. rewrite E.
    cbn [bind F64.to_Z try_except].
    rewrite Z.quot_opp_l, Z.quot_mul by lia. reflexivity.
Qed.

(** A quantity cell that holds an integer of at most 53 bits, printed in
    decimal, is read back as that integer. *)
Theorem quantity_read_back (row : gmap string cell) (n : Z) :
  row !! "Jumlah (QTY)" = Some (Val (Str.of_Z n)) ->
  Z.abs n <= 2 ^ 53 ->
  resolve_qty row = Ok n.
Proof.
  intros Hrow Hn. destruct (parse_qty_printed n Hn) as [Hp Hs].
  unfold resolve_qty, QTY_NAMES. cbn [get_column_value].
  rewrite Hrow, Hs.
  assert (Hne : Str.truthy (Str.of_Z n) = true)
    by apply truthy_true, of_Z_nonempty.
  now rewrite Hne.
Qed.

Lemma quantity_read_back_witness :
  resolve_qty (<["Jumlah (QTY)" := Val (Str.of_Z 12)]> ∅) = Ok 12.
Proof.
  apply quantity_read_back; [reflexivity | vm_compute; discriminate].
Defined.

(** ** Grouped digits and printed halves *)

Lemma join_push c sep x l :
  String c (Str.join sep (x :: l)) = Str.join sep (String c x :: l).
Proof. destruct l; reflexivity. Qed.

Lemma group_chunks ds :
  ds <> "" -> Str.all F64.is_digit ds = true ->
  exists first rest,
    replace_char "," "." (group3 ds) = Str.join "." (first :: rest)
    /\ String.length first = ((String.length ds - 1) mod 3 + 1)%nat
    /\ Forall (fun g => String.length g = 3%nat) rest
    /\ Str.join "" (first :: rest) = ds.
Proof.
  induction ds as [|c ds IH]; [congruence|]. intros _ H.
  cbn [Str.all] in H. apply andb_true_iff in H as [Hc Hds].
  destruct (digit_is_no_mark c Hc) as [Hcomma _].
  destruct ds as [|c2 ds2].
  - exists (String c ""), []. cbn [group3 replace_char String.length].
    rewrite Hcomma. repeat split. constructor.
  - destruct (IH ltac:(discriminate) Hds) as (f & rest & HG & Hlen & Hrest & Hj).
    set (r := String c2 ds2) in *.
    assert (Hr : (String.length r >= 1)%nat) by (unfold r; cbn; lia).
    assert (Hs : (String.length (String c r) - 1 = String.length r)%nat)
      by (cbn [String.length]; lia).
    cbn [group3 replace_char]. rewrite Hcomma.
    assert (Hnz : Nat.eqb (String.length r) 0 = false)
      by (apply Nat.eqb_neq; lia).
    rewrite Hnz. cbn [negb andb].
    destruct (Nat.eqb (String.length r mod 3) 0) eqn:Emod.
    + apply Nat.eqb_eq in Emod.
      exists (String c ""), (f :: rest). cbn [replace_char].
      change (Ascii.eqb "," ",") with true. cbv iota. rewrite HG.
      split; [reflexivity|]. split; [|split].
      * rewrite Hs, Emod. reflexivity.
      * constructor; [|exact Hrest]. rewrite Hlen.
        pose proof (Nat.mod_upper_bound (String.length r - 1) 3).
        pose proof (Nat.div_mod_eq (String.length r) 3).
        pose proof (Nat.div_mod_eq (String.length r - 1) 3).
        lia.
      * change (Str.join "" (String c "" :: f :: rest))
          with (String c (Str.join "" (f :: rest))).
        now rewrite Hj.
    + apply Nat.eqb_neq in Emod.
      exists (String c f), rest. rewrite HG, join_push.
      split; [reflexivity|]. split; [|split; [exact Hrest|]].
      * rewrite Hs. cbn [String.length]. rewrite Hlen.
        pose proof (Nat.mod_upper_bound (String.length r - 1) 3).
        pose proof (Nat.mod_upper_bound (String.length r) 3).
        pose proof (Nat.div_mod_eq (String.length r) 3).
        pose proof (Nat.div_mod_eq (String.length r - 1) 3).
        lia.
      * rewrite <- join_push. now rewrite Hj.
Qed.

(** For an amount from 0 to 2^53, [format_currency] returns [Rp], a blank
    and the decimal digits of the amount cut into groups joined by dots: a
    first group of one to three digits, then groups of exactly three. *)
Theorem format_currency_groups (n : Z) :
  0 <= n <= 2 ^ 53 ->
  exists first rest,
    format_currency (Int n) = Ok ("Rp " +:+ Str.join "." (first :: rest))
    /\ (1 <= String.length first <= 3)%nat
    /\ Forall (fun g => String.length g = 3%nat) rest
    /\ Str.join "" (first :: rest) = Str.of_Z n.
Proof.
  intros Hn. rewrite (format_int n) by lia.
  destruct (Z.ltb_spec n 0) as [Hneg | _]; [lia|].
  rewrite Z.abs_eq by lia.
  destruct (group_chunks (Str.of_Z n) (of_Z_nonempty n)
              (of_Z_digits n ltac:(lia)))
    as (first & rest & HG & Hlen & Hrest & Hj).
  exists first, rest. rewrite HG. split; [reflexivity|].
  split; [|split; assumption].
  pose proof (Nat.mod_upper_bound (String.length (Str.of_Z n) - 1) 3). lia.
Qed.

Lemma format_currency_groups_witness :
  exists first rest,
    format_currency (Int 1500000)
    = Ok ("Rp " +:+ Str.join "." (first :: rest))
    /\ (1 <= String.length first <= 3)%nat
    /\ Forall (fun g => String.length g = 3%nat) rest
    /\ Str.join "" (first :: rest) = Str.of_Z 1500000.
Proof.
  apply format_currency_groups. split; [lia | vm_compute; discriminate].
Defined.

(** The two amounts of a down payment print as the exact half of the
    total: with a total of at most 53 bits the float half is the integer
    50000 times the quantity, and [format_currency] prints it as that. *)
Theorem down_payment_prints_exact_half
    (w : env) (row : gmap string cell) (inv : invoice) :
  build_invoice w row = Ok inv ->
  is_dp inv = true ->
  Z.abs (total_harga inv) <= 2 ^ 53 ->
  format_currency (jumlah_dibayar inv)
  = format_currency (Int (50000 * qty inv))
  /\ format_currency (sisa_tagihan inv)
     = format_currency (Int (50000 * qty inv)).
Proof.
  intros H D Hsmall.
  apply build_invoice_inv in H as (_ & Ht & _ & _ & _ & _ & P).
  rewrite D in P. apply payment_dp in P as (h & E & -> & -> & _).
  rewrite (F64Facts.of_Z_exact _ Hsmall) in E.
  assert (E' : total_harga inv * F64.one = 2 * h) by congruence.
  assert (Hh : h = 50000 * qty inv * F64.one)
    by (rewrite Ht in E'; unfold HARGA_SATUAN in E'; lia).
  assert (Hhalf : Z.abs (50000 * qty inv) <= 2 ^ 53)
    by (rewrite Ht in Hsmall; unfold HARGA_SATUAN in Hsmall; lia).
  unfold format_currency, to_float.
  rewrite (F64Facts.of_Z_exact _ Hhalf), Hh. split; reflexivity.
Qed.

Lemma down_payment_prints_exact_half_witness :
  exists inv,
    build_invoice demo_env row_dp = Ok inv
    /\ format_currency (jumlah_dibayar inv) = Ok "Rp 100.000".
Proof.
  eexists. split; [vm_compute; reflexivity|].
  edestruct (down_payment_prints_exact_half demo_env row_dp) as [Hp _];
    [vm_compute; reflexivity | vm_compute; reflexivity
     | vm_compute; discriminate |].
  rewrite Hp. vm_compute. reflexivity.
Defined.

(** ** Line breaks *)

Lemma breaks_needed_last max_chars l a a' :
  (forall w, first_word w a -> first_word w a') ->
  breaks_needed max_chars (l ++ [a]) ->
  breaks_needed max_chars (l ++ [a']).
Proof.
  intros Hw. induction l as [|x l IH]; [intros _; cbn; auto|].
  destruct l as [|y l].
  - cbn. intros [(w & F & Hlen) _]. split; [|auto].
    exists w. split; [now apply Hw | exact Hlen].
  - intros [Hxy H]. split; [exact Hxy | now apply IH].
Qed.

Lemma breaks_needed_snoc max_chars l a b :
  word_ok b -> max_chars < Str.len a + Str.len b + 1 ->
  breaks_needed max_chars (l ++ [a]) ->
  breaks_needed max_chars ((l ++ [a]) ++ [b]).
Proof.
  intros Hb Hgt. induction l as [|x l IH].
  - intros _. cbn. split; [|auto]. exists b. split; [|exact Hgt].
    split; [exact Hb | now left].
  - destruct l as [|y l].
    + intros [Hxa _]. split; [exact Hxa|]. now apply IH.
    + intros [Hxy H]. split; [exact Hxy | now apply IH].
Qed.

Lemma first_word_grows w cur word :
  first_word w cur -> first_word w (cur +:+ " " +:+ word).
Proof.
  intros [Hw [-> | (rest & ->)]]; (split; [exact Hw|]); right.
  - now exists word.
  - exists (rest +:+ " " +:+ word). now rewrite !str_app_assoc.
Qed.

Lemma wrap_loop_breaks max_chars ws : forall lines cur L c',
  Forall word_ok ws ->
  (cur = "" -> lines = []) ->
  breaks_needed max_chars
    (if Str.truthy cur then (lines ++ [cur])%list else lines) ->
  wrap_loop max_chars ws lines cur = (L, c') ->
  breaks_needed max_chars
    (if Str.truthy c' then (L ++ [c'])%list else L).
Proof.
  induction ws as [|word ws IH]; intros lines cur L c' Hws Hc Hb;
    cbn [wrap_loop].
  - now intros [= <- <-].
  - apply Forall_cons_iff in Hws as [Hw Hws].
    assert (Tw : Str.truthy word = true) by (apply truthy_true, Hw).
    destruct (Z.leb_spec (Str.len cur + Str.len word + 1) max_chars)
      as [Hle | Hgt].
    + apply IH; [exact Hws | |].
      * destruct cur; [intros _; now apply Hc | discriminate].
      * destruct cur as [|c cur].
        -- cbn [Str.truthy String.append]. rewrite Tw.
           rewrite (Hc eq_refl). cbn. auto.
        -- cbn [Str.truthy] in Hb |- *.
           change (Str.truthy (String c cur +:+ " " +:+ word)) with true.
           cbv iota.
           apply (breaks_needed_last max_chars lines (String c cur));
             [intros w; apply first_word_grows | exact Hb].
    + apply IH; [exact Hws | | ].
      * intros ->. discriminate.
      * rewrite Tw. destruct cur as [|c cur].
        -- rewrite (Hc eq_refl). cbn. auto.
        -- cbn [Str.truthy] in Hb |- *.
           now apply breaks_needed_snoc.
Qed.

(** [wrap_text] breaks a line only when it has to: in a text that is
    wrapped, the first word of every line after the first would not have
    fitted, after a blank, at the end of the line before it. *)
Theorem wrap_text_breaks_when_needed (s : string) (max_chars : Z) :
  max_chars < Str.len s ->
  breaks_needed max_chars (lines_of (wrap_text (Some s) max_chars)).
Proof.
  intros Hgt.
  destruct (string_dec s "") as [-> | Hne]; [cbn; auto|].
  rewrite (wrap_text_unfold _ _ Hne).
  destruct (Z.leb_spec (Str.len s) max_chars) as [Hle | _]; [lia|].
  unfold wrapped.
  destruct (wrap_loop max_chars (Str.split s) [] "") as [L c'] eqn:W.
  pose proof (wrap_loop_breaks max_chars (Str.split s) [] "" L c'
                (split_words_ok s) (fun _ => eq_refl) I W) as Hb.
  destruct (wrap_loop_lines max_chars (Str.split s) (Str.split s)
              [] "" L c' (fun _ H => H) (split_words_ok s)
              (List.Forall_nil _) (or_introl eq_refl) W) as [HL Hc'].
  remember (if Str.truthy c' then (L ++ [c'])%list else L) as L' eqn:EL.
  assert (HL' : Forall no_lf L').
  { subst L'. destruct c' as [|c c'].
    - eapply List.Forall_impl; [|exact HL]. now intros l [Hl _].
    - cbn [Str.truthy]. apply Forall_app. split.
      + eapply List.Forall_impl; [|exact HL]. now intros l [Hl _].
      + constructor; [|constructor].
        destruct Hc' as [Hc' | [Hc' _]]; [discriminate | exact Hc']. }
  clear EL. destruct L' as [|l0 rest]; [cbn; auto|].
  rewrite lines_of_join; [exact Hb | discriminate | exact HL'].
Qed.

Lemma wrap_text_breaks_when_needed_witness :
  breaks_needed 5 (lines_of (wrap_text (Some "aaa bb cccccccccc d") 5)).
Proof.
  apply wrap_text_breaks_when_needed. vm_compute. reflexivity.
Defined.

(** ** Column labels *)

Lemma lstrip_id s : starts_clean s -> Str.lstrip s = s.
Proof.
  destruct s as [|c s]; [reflexivity|]. cbn [starts_clean Str.lstrip].
  now intros ->.
Qed.

Lemma rstrip_clean s : ends_clean s -> Str.rstrip s = s.
Proof.
  induction s as [|c s IH]; [reflexivity|]. intros He.
  cbn [Str.rstrip]. destruct s as [|d s].
  - cbn [Str.rstrip Str.truthy negb]. rewrite andb_true_r.
    now rewrite (He "" c eq_refl).
  - rewrite IH.
    + cbn [Str.truthy negb]. now rewrite andb_false_r.
    + intros u x E. apply (He (String c u) x). cbn. now rewrite E.
Qed.

Lemma strip_strip s : Str.strip (Str.strip s) = Str.strip s.
Proof.
  destruct (strip_trimmed s) as (l & r & _ & _ & _ & Hs & He).
  unfold Str.strip at 1. rewrite (lstrip_id _ Hs). now apply rstrip_clean.
Qed.

(** [clean_column_names] only trims: every label comes out as the label
    without its leading and trailing white space, in place, letter case
    untouched; a label already trimmed is kept as it is, so cleaning twice
    is cleaning once. *)
Theorem clean_column_names_trims (columns : list string) :
  Forall2 trimmed_of columns (clean_column_names columns)
  /\ clean_column_names (clean_column_names columns)
     = clean_column_names columns
  /\ (Forall (fun c => starts_clean c /\ ends_clean c) columns <->
      clean_column_names columns = columns).
Proof.
  unfold clean_column_names. split; [|split; [|split]].
  - induction columns as [|c cs IH]; constructor;
      [apply strip_trimmed | exact IH].
  - rewrite map_map. apply map_ext. intros c. apply strip_strip.
  - induction 1 as [|c cs [Hs He] _ IH]; [reflexivity|]. cbn [map].
    rewrite IH. f_equal. unfold Str.strip. rewrite (lstrip_id _ Hs).
    now apply rstrip_clean.
  - induction columns as [|c cs IH]; [constructor|]. cbn [map].
    intros [= Hc Hcs]. constructor; [|now apply IH].
    destruct (strip_trimmed c) as (l & r & _ & _ & _ & Hs & He).
    rewrite Hc in Hs, He. now split.
Qed.
